(** * Canvas-to-slides converter: a shallow embedding of [script.py]

    The development follows the source file top to bottom:
    - [Py]: the Python values the script manipulates ([str] as a sequence of
      code points, the few [re] patterns it uses, slicing, [str.strip]);
    - [SafeFilename]: the filename sanitizer;
    - [Bs4]: the parsed HTML tree the converter walks ([find_all],
      [get_text], [find_parent], [decompose]);
    - [Pptx]: the presentation being built (slides, body paragraphs, tables,
      notes);
    - [PowerPointGenerator]: the converter class itself, method by method;
    - the properties of the converter. *)

From Stdlib Require Import String Ascii DecimalString DecimalNat DecimalFacts.
From Stdlib Require Import NArith ZArith Arith Bool Lia List Sorted.
Import ListNotations.

Local Open Scope list_scope.

(* ================================================================== *)
(** ** Python strings and the regular expressions of the script *)
(* ================================================================== *)

Module Py.

(** A Python [str] is a sequence of Unicode code points. *)
Definition str : Type := list N.

(** An ASCII literal of the script, as a [str]. *)
Definition lit (s : string) : str :=
  map N_of_ascii (list_ascii_of_string s).

Definition str_eqb (a b : str) : bool :=
  if list_eq_dec N.eq_dec a b then true else false.

(** Truth value of a [str]: non-empty. *)
Definition truthy (s : str) : bool :=
  match s with [] => false | _ :: _ => true end.

(** [str.isspace] on one code point; it is also the class [\s] of [re] on
    [str] patterns. *)
Definition is_space (c : N) : bool :=
  ((0x09 <=? c) && (c <=? 0x0D) || (0x1C <=? c) && (c <=? 0x20)
   || (c =? 0x85) || (c =? 0xA0) || (c =? 0x1680)
   || (0x2000 <=? c) && (c <=? 0x200A)
   || (c =? 0x2028) || (c =? 0x2029) || (c =? 0x202F) || (c =? 0x205F)
   || (c =? 0x3000))%N.

(** First code points of the runs of ten decimal digits (general category
    Nd, Unicode 14): the class [\d] of [re] on [str] patterns. The
    mathematical digits U+1D7CE..U+1D7FF are five such runs. *)
Definition decimal_runs : list N :=
  [ 0x30; 0x660; 0x6F0; 0x7C0; 0x966; 0x9E6; 0xA66; 0xAE6; 0xB66; 0xBE6;
    0xC66; 0xCE6; 0xD66; 0xDE6; 0xE50; 0xED0; 0xF20; 0x1040; 0x1090;
    0x17E0; 0x1810; 0x1946; 0x19D0; 0x1A80; 0x1A90; 0x1B50; 0x1BB0;
    0x1C40; 0x1C50; 0xA620; 0xA8D0; 0xA900; 0xA9D0; 0xA9F0; 0xAA50;
    0xABF0; 0xFF10; 0x104A0; 0x10D30; 0x11066; 0x110F0; 0x11136; 0x111D0;
    0x112F0; 0x11450; 0x114D0; 0x11650; 0x116C0; 0x11730; 0x118E0;
    0x11950; 0x11C50; 0x11D50; 0x11DA0; 0x16A60; 0x16AC0; 0x16B50;
    0x1D7CE; 0x1D7D8; 0x1D7E2; 0x1D7EC; 0x1D7F6;
    0x1E140; 0x1E2F0; 0x1E950; 0x1FBF0 ]%N.

Definition is_digit (c : N) : bool :=
  existsb (fun lo => (lo <=? c) && (c <? lo + 10))%N decimal_runs.

Fixpoint lstrip (s : str) : str :=
  match s with
  | c :: r => if is_space c then lstrip r else s
  | [] => []
  end.

Definition rstrip (s : str) : str := rev (lstrip (rev s)).

(** [s.strip()] *)
Definition strip (s : str) : str := rstrip (lstrip s).

(** [s[:k]] for an [int] bound [k]; a negative bound counts from the end. *)
Definition slice_to (k : Z) (s : str) : str :=
  if (0 <=? k)%Z then firstn (Z.to_nat k) s
  else firstn (length s - Z.to_nat (- k)) s.

(** [sep.join(parts)] *)
Fixpoint join (sep : str) (parts : list str) : str :=
  match parts with
  | [] => []
  | [p] => p
  | p :: rest => p ++ sep ++ join sep rest
  end.

(** [str(n)] for a non-negative [int]. *)
Definition of_nat (n : nat) : str :=
  lit (NilZero.string_of_uint (Nat.to_uint n)).

(** *** Matching under [re.IGNORECASE]

    A lowercase ASCII letter [p] of a pattern matches the code points whose
    lowercase is [p], and for the letters [s], [k] and [i] also the
    characters the engine lists as their case variants (long s, Kelvin sign,
    dotted capital I and dotless i). Any other pattern character matches
    itself only. *)
Definition ci_char (p c : N) : bool :=
  ((c =? p)
   || ((0x61 <=? p) && (p <=? 0x7A) && (c =? p - 32))
   || ((p =? 0x73) && (c =? 0x17F))
   || ((p =? 0x6B) && (c =? 0x212A))
   || ((p =? 0x69) && ((c =? 0x130) || (c =? 0x131))))%N.

(** Match the literal [pat] case-insensitively at the start of [s]; the
    result is what follows the match. *)
Fixpoint ci_prefix (pat s : str) : option str :=
  match pat, s with
  | [], _ => Some s
  | p :: pat', c :: s' => if ci_char p c then ci_prefix pat' s' else None
  | _ :: _, [] => None
  end.

Definition colon : N := 0x3A%N.

(** [\s*:\s*] at the start of [s]. The classes are disjoint, so greedy
    matching never has to give characters back. *)
Definition spaces_colon_spaces (s : str) : option str :=
  match lstrip s with
  | c :: r => if (c =? colon)%N then Some (lstrip r) else None
  | [] => None
  end.

Fixpoint drop_digits (s : str) : str :=
  match s with
  | c :: r => if is_digit c then drop_digits r else s
  | [] => []
  end.

(** [re.sub(r'^slide\s*\d+\s*:\s*', '', s, flags=re.IGNORECASE)] *)
Definition sub_slide_prefix (s : str) : str :=
  match ci_prefix (lit "slide") s with
  | Some r =>
      match lstrip r with
      | d :: r' =>
          if is_digit d then
            match spaces_colon_spaces (drop_digits r') with
            | Some rest => rest
            | None => s
            end
          else s
      | [] => s
      end
  | None => s
  end.

(** [re.sub(r'^subtitle\s*:\s*', '', s, flags=re.IGNORECASE)] *)
Definition sub_subtitle_prefix (s : str) : str :=
  match ci_prefix (lit "subtitle") s with
  | Some r =>
      match spaces_colon_spaces r with
      | Some rest => rest
      | None => s
      end
  | None => s
  end.

(** The marker [speaker notes\s*:\s*] at the start of [s]. *)
Definition notes_marker_at (s : str) : option str :=
  match ci_prefix (lit "speaker notes") s with
  | Some r => spaces_colon_spaces r
  | None => None
  end.

(** [re.split(r"speaker notes\s*:\s*", s, flags=re.IGNORECASE, maxsplit=1)]
    when the marker occurs in [s] (what [re.search] finds is the leftmost
    occurrence): the text before it and the text after it. [None] when
    [re.search] finds nothing. *)
Fixpoint split_notes (s : str) : option (str * str) :=
  match notes_marker_at s with
  | Some after => Some ([], after)
  | None =>
      match s with
      | [] => None
      | c :: r =>
          match split_notes r with
          | Some (before, after) => Some (c :: before, after)
          | None => None
          end
      end
  end.

(** Exceptions the script can meet. *)
Inductive exn : Type :=
| AttributeError
| TypeError
| ValueError
| IOError.

(** Outcome of a call that mutates state: the state is kept in both cases,
    since what was done before an exception stays done. *)
Inductive result (S : Type) : Type :=
| Ok (s : S)
| Raise (e : exn) (s : S).

Arguments Ok {S} s.
Arguments Raise {S} e s.

Definition bind {S : Type} (r : result S) (k : S -> result S) : result S :=
  match r with
  | Ok s => k s
  | Raise e s => Raise e s
  end.

(** [try: ... except Exception: handler] *)
Definition try_except {S : Type} (r : result S) (handler : S -> S)
  : result S :=
  match r with
  | Ok s => Ok s
  | Raise _ s => Ok (handler s)
  end.

Definition state_of {S : Type} (r : result S) : S :=
  match r with Ok s => s | Raise _ s => s end.

(** Membership in a Python [set] or [list] ([x in xs]). *)
Definition mem {A : Type} (eqb : A -> A -> bool) (x : A) (xs : list A) : bool :=
  existsb (eqb x) xs.

(** [max(xs)]: raises [ValueError] on an empty sequence. *)
Definition max_of (xs : list nat) : option nat :=
  match xs with
  | [] => None
  | x :: r => Some (fold_left Nat.max r x)
  end.

End Py.

Notation "x <- r ;; k" := (Py.bind r (fun x => k))
  (at level 61, r at next level, right associativity).

(* ================================================================== *)
(** ** [class SafeFilename] *)
(* ================================================================== *)

Module SafeFilename.
Import Py.

Definition underscore : N := 0x5F%N.

(** The characters of the class of line 84: less-than, greater-than, colon,
    double quote, slash, backslash, vertical bar, question mark, asterisk. *)
Definition dangerous_chars : list N :=
  [0x3C; 0x3E; 0x3A; 0x22; 0x2F; 0x5C; 0x7C; 0x3F; 0x2A]%N.

Definition is_dangerous (c : N) : bool := mem N.eqb c dangerous_chars.

(** The first [re.sub]: each of these characters becomes an underscore. *)
Definition sub_dangerous (s : str) : str :=
  map (fun c => if is_dangerous c then underscore else c) s.

(** [re.sub(r'\s+', '_', filename)]: every maximal run of whitespace becomes
    one underscore; [in_run] tells that the run was already replaced. *)
Fixpoint sub_space_runs (in_run : bool) (s : str) : str :=
  match s with
  | [] => []
  | c :: r =>
      if is_space c then
        if in_run then sub_space_runs true r
        else underscore :: sub_space_runs true r
      else c :: sub_space_runs false r
  end.

Definition is_ascii (c : N) : bool := (c <? 128)%N.

Definition fallback_name : str := lit "canvas_export".

Section Sanitize.

(** [unicodedata.normalize('NFKD', _)]: the table is the Unicode
    database's, not the script's. *)
Variable normalize_NFKD : str -> str.

(** [SafeFilename.sanitize(filename, max_length=100)] *)
Definition sanitize (filename : str) (max_length : Z) : str :=
  let filename := sub_dangerous filename in
  let filename := sub_space_runs false filename in
  let filename := normalize_NFKD filename in
  let filename := filter is_ascii filename in
  let filename :=
    if (Z.of_nat (length filename) >? max_length - 5)%Z
    then slice_to (max_length - 5) filename
    else filename in
  if truthy filename then filename else fallback_name.

End Sanitize.

(** An excerpt of the compatibility decompositions of the Unicode database,
    enough to run the sanitizer on the characters below; every other code
    point is left as it is. U+00A8 DIAERESIS is [<compat> 0020 0308] and
    U+FF1C FULLWIDTH LESS-THAN SIGN is [<wide> 003C]. *)
Definition nfkd_excerpt (s : str) : str :=
  flat_map (fun c =>
    if (c =? 0xA8)%N then [0x20; 0x308]%N
    else if (c =? 0xFF1C)%N then [0x3C]%N
    else [c]) s.

(** A path as the script uses it: the directory it lies in and its final
    component. *)
Record Path : Type := mkPath {
  parent : str;
  name : str
}.

Definition path_eqb (a b : Path) : bool :=
  str_eqb (parent a) (parent b) && str_eqb (name a) (name b).

Definition dot : N := 0x2E%N.

(** [name.rfind('.')]: the position of the last dot of [s], counted from
    [i], the position of its first character. *)
Fixpoint rfind_dot (i : nat) (s : str) : option nat :=
  match s with
  | [] => None
  | c :: r =>
      match rfind_dot (S i) r with
      | Some j => Some j
      | None => if (c =? dot)%N then Some i else None
      end
  end.

(** Where [pathlib] splits a name into stem and suffix: at its last dot,
    unless that dot opens or closes the name. *)
Definition split_point (n : str) : option nat :=
  match rfind_dot 0 n with
  | Some i => if ((0 <? i) && (i <? length n - 1))%nat then Some i else None
  | None => None
  end.

(** [filepath.stem] *)
Definition stem (p : Path) : str :=
  match split_point (name p) with
  | Some i => firstn i (name p)
  | None => name p
  end.

(** [filepath.suffix] *)
Definition suffix (p : Path) : str :=
  match split_point (name p) with
  | Some i => skipn i (name p)
  | None => []
  end.

(** [parent / f"{stem}_{counter}{suffix}"] *)
Definition numbered (filepath : Path) (counter : nat) : Path :=
  mkPath (parent filepath)
    (stem filepath ++ [underscore] ++ of_nat counter ++ suffix filepath).

(** [path.exists()], the file system holding the paths [fs]. *)
Definition path_exists (fs : list Path) (p : Path) : bool :=
  mem path_eqb p fs.

(** The [while True] loop of [ensure_unique], from the value [counter], for
    at most [fuel] turns. *)
Fixpoint first_free (fs : list Path) (filepath : Path) (fuel counter : nat)
  : option Path :=
  match fuel with
  | O => None
  | S fuel' =>
      let new_path := numbered filepath counter in
      if negb (path_exists fs new_path) then Some new_path
      else first_free fs filepath fuel' (S counter)
  end.

(** [SafeFilename.ensure_unique(filepath)] *)
Definition ensure_unique (fs : list Path) (fuel : nat) (filepath : Path)
  : option Path :=
  if negb (path_exists fs filepath) then Some filepath
  else first_free fs filepath fuel 1.

End SafeFilename.

(* ================================================================== *)
(** ** The parsed document (BeautifulSoup) *)
(* ================================================================== *)

Module Bs4.
Import Py.

(** A node of the tree: a text node, or a tag with its object identity
    (what [id(element)] returns), its name, the values of its [class]
    attribute and its children in document order. *)
#[warnings="-register-all"]
Inductive PageElement : Type :=
| NavigableString (s : str)
| Tag (ident : nat) (name : string) (class_ : list string)
      (contents : list PageElement).

(** A tag as [find_all] hands it out: the node, and the names of its
    ancestors, the nearest first (the tree above the node is what
    [find_parent] and [find_parents] walk). *)
Record Element : Type := mkElement {
  parents : list string;
  node : PageElement
}.

Definition el_id (e : Element) : nat :=
  match node e with Tag i _ _ _ => i | NavigableString _ => 0 end.

Definition el_name (e : Element) : string :=
  match node e with Tag _ n _ _ => n | NavigableString _ => EmptyString end.

(** [element.get("class", [])] *)
Definition el_class (e : Element) : list string :=
  match node e with Tag _ _ c _ => c | NavigableString _ => [] end.

Definition children (p : PageElement) : list PageElement :=
  match p with Tag _ _ _ kids => kids | NavigableString _ => [] end.

Definition is_tag (p : PageElement) : bool :=
  match p with Tag _ _ _ _ => true | NavigableString _ => false end.

Definition name_in (names : list string) (n : string) : bool :=
  mem String.eqb n names.

(** The text nodes below [p], in document order. *)
Fixpoint strings (p : PageElement) : list str :=
  match p with
  | NavigableString s => [s]
  | Tag _ _ _ kids =>
      (fix over (l : list PageElement) : list str :=
         match l with
         | [] => []
         | k :: l' => strings k ++ over l'
         end) kids
  end.

(** [p.get_text(sep, strip=True)]: every text node stripped, the empty ones
    dropped, the rest joined by [sep]. *)
Definition get_text_sep (sep : str) (p : PageElement) : str :=
  join sep (filter truthy (map strip (strings p))).

(** [p.get_text(strip=True)] *)
Definition get_text (p : PageElement) : str := get_text_sep [] p.

(** [p.descendants], tags only: every tag below [p] in document order,
    [ps] being the names of the ancestors of [p]. *)
Fixpoint descendants (ps : list string) (p : PageElement) : list Element :=
  match p with
  | NavigableString _ => []
  | Tag _ n _ kids =>
      (fix over (l : list PageElement) : list Element :=
         match l with
         | [] => []
         | k :: l' =>
             (if is_tag k then [mkElement (n :: ps) k] else [])
               ++ descendants (n :: ps) k ++ over l'
         end) kids
  end.

(** [p.find_all(names, recursive=True)] *)
Definition find_all (names : list string) (ps : list string)
  (p : PageElement) : list Element :=
  filter (fun e => name_in names (el_name e)) (descendants ps p).

(** [p.find_all(names, recursive=False)]: among the children only. *)
Definition find_children (names : list string) (p : PageElement)
  : list PageElement :=
  filter (fun k =>
    match k with
    | Tag _ n _ _ => name_in names n
    | NavigableString _ => false
    end) (children p).

(** [e.find_parent(names)] and [e.find_parents(names)] are used for their
    truth value only: some ancestor bears one of the names. *)
Definition has_parent (names : list string) (e : Element) : bool :=
  existsb (name_in names) (parents e).

(** The tree after [victim.decompose()]: the tag of identity [victim] is
    taken out with everything below it. *)
Fixpoint decompose (victim : nat) (p : PageElement) : PageElement :=
  match p with
  | NavigableString s => NavigableString s
  | Tag i n c kids =>
      Tag i n c
        ((fix over (l : list PageElement) : list PageElement :=
            match l with
            | [] => []
            | k :: l' =>
                match k with
                | Tag j _ _ _ =>
                    if Nat.eqb j victim then over l'
                    else decompose victim k :: over l'
                | NavigableString _ => k :: over l'
                end
            end) kids)
  end.

(** The tag of identity [i] as it stands in the tree now, if it is still
    there. *)
Definition lookup (i : nat) (root : PageElement) : option Element :=
  find (fun e => Nat.eqb (el_id e) i) (descendants [] root).

(** [el.get_text(strip=True)] for a tag handed out before some
    [decompose()] calls: its text as the tree stands now; a tag that was
    destroyed (itself or with an ancestor) has no contents left, and no
    text. *)
Definition current_text (i : nat) (root : PageElement) : str :=
  match lookup i root with
  | Some e => get_text (node e)
  | None => []
  end.

End Bs4.

(* ================================================================== *)
(** ** The presentation being built (python-pptx) *)
(* ================================================================== *)

Module Pptx.
Import Py.

(** What [_set_font_safely] leaves on a paragraph. *)
Inductive Font : Type :=
| Inherited            (* nothing set: the layout's font *)
| CourierNew20         (* font type 'code' *)
| Arial22.             (* the fallback of the [except] branch *)

(** A paragraph of a text frame. *)
Record Paragraph : Type := mkParagraph {
  p_text : str;
  p_level : nat;
  p_bu_none : bool;     (* an [a:buNone] child: no bullet *)
  p_font : Font
}.

(** What [add_paragraph()] returns, and what [clear()] leaves. *)
Definition empty_paragraph : Paragraph := mkParagraph [] 0 false Inherited.

(** Shapes added to a slide besides its placeholders. *)
Inductive Shape : Type :=
| Picture                                           (* the watermark *)
| Table (cells : list (list str)) (header_fill : bool).

Record Slide : Type := mkSlide {
  layout : nat;                 (* index in [prs.slide_layouts] *)
  title : str;                  (* [shapes.title.text] *)
  body : list Paragraph;        (* text frame of [placeholders[1]] *)
  shapes : list Shape;
  notes : option str            (* [notes_slide], once created, and its text *)
}.

(** [prs.slides.add_slide(layout)]: placeholders empty, no notes slide. *)
Definition new_slide (l : nat) : Slide :=
  mkSlide l [] [empty_paragraph] [] None.

Definition set_title (t : str) (s : Slide) : Slide :=
  mkSlide (layout s) t (body s) (shapes s) (notes s).

Definition set_body (b : list Paragraph) (s : Slide) : Slide :=
  mkSlide (layout s) (title s) b (shapes s) (notes s).

Definition add_shape (sh : Shape) (s : Slide) : Slide :=
  mkSlide (layout s) (title s) (body s) (shapes s ++ [sh]) (notes s).

(** [slide.notes_slide]: created empty on first access. *)
Definition touch_notes (s : Slide) : Slide :=
  mkSlide (layout s) (title s) (body s) (shapes s)
    (match notes s with Some t => Some t | None => Some [] end).

(** [slide.notes_slide.notes_text_frame.text = t] *)
Definition set_notes (t : str) (s : Slide) : Slide :=
  mkSlide (layout s) (title s) (body s) (shapes s) (Some t).

(** [placeholder.text = t] *)
Definition set_text (t : str) : list Paragraph :=
  [mkParagraph t 0 false Inherited].

(** Update of the slide object at position [i] of [prs.slides]. *)
Fixpoint update (i : nat) (f : Slide -> Slide) (slides : list Slide)
  : list Slide :=
  match slides, i with
  | [], _ => []
  | s :: r, O => f s :: r
  | s :: r, S j => s :: update j f r
  end.

(** The object [content_box] the generator passes around: either the text
    frame of the body placeholder (what [_add_content_slide] returns) or the
    placeholder shape itself (what [_ensure_slide] returns for a slide that
    is already open). Only the shape has a [text_frame] attribute. *)
Inductive ContentBox : Type :=
| TextFrameOf (slide : nat)
| PlaceholderOf (slide : nat).

End Pptx.

(* ================================================================== *)
(** ** [class PowerPointGenerator] *)
(* ================================================================== *)

Module PowerPointGenerator.
Import Py Bs4 Pptx.

Local Open Scope string_scope.
Local Open Scope list_scope.

(** [class Config], the fields the generator reads. *)
Record Config : Type := mkConfig {
  max_slide_content_length : Z;
  max_filename_length : Z
}.

Definition default_config : Config := mkConfig 1000 100.

(** What the run depends on outside the program: whether the watermark
    picture gets inserted, whether the presentation can be written, and
    whether the notes file can. *)
Record Env : Type := mkEnv {
  watermark_inserted : bool;
  presentation_writable : bool;
  notes_file_writable : bool
}.

(** A key of the notes: 1-based slide number and note text. *)
Definition NoteKey : Type := (nat * str)%type.

Definition key_eqb (a b : NoteKey) : bool :=
  Nat.eqb (fst a) (fst b) && str_eqb (snd a) (snd b).

(** The instance attributes the methods change. *)
Record Generator : Type := mkGenerator {
  speaker_notes_txt : list NoteKey;
  notes_seen : list NoteKey;            (* a [set] *)
  slide_count : nat
}.

(** [__init__] *)
Definition init : Generator := mkGenerator [] [] 0.

(** The generator together with the presentation and the local variables
    of [_process_content_elements]. [current_slide] refers to a slide of
    [prs] by its position. *)
Record Pass : Type := mkPass {
  self : Generator;
  prs : list Slide;
  current_slide : option nat;
  code_buffer : list str;
  processed_elements : list nat         (* a [set] of [id(element)] *)
}.

Definition with_self (g : Generator) (st : Pass) : Pass :=
  mkPass g (prs st) (current_slide st) (code_buffer st)
    (processed_elements st).

Definition with_prs (p : list Slide) (st : Pass) : Pass :=
  mkPass (self st) p (current_slide st) (code_buffer st)
    (processed_elements st).

Definition with_current_slide (c : option nat) (st : Pass) : Pass :=
  mkPass (self st) (prs st) c (code_buffer st) (processed_elements st).

Definition with_code_buffer (b : list str) (st : Pass) : Pass :=
  mkPass (self st) (prs st) (current_slide st) b (processed_elements st).

(** [processed_elements.add(element_id)] *)
Definition mark_processed (i : nat) (st : Pass) : Pass :=
  mkPass (self st) (prs st) (current_slide st) (code_buffer st)
    (i :: processed_elements st).

Definition on_slide (i : nat) (f : Slide -> Slide) (st : Pass) : Pass :=
  with_prs (update i f (prs st)) st.

(** [self.slide_count += 1] *)
Definition count_slide (st : Pass) : Pass :=
  with_self (mkGenerator (speaker_notes_txt (self st)) (notes_seen (self st))
               (S (slide_count (self st)))) st.

(** [self.notes_seen.add(k); self.speaker_notes_txt.append(k)] *)
Definition remember_note (k : NoteKey) (st : Pass) : Pass :=
  with_self (mkGenerator (speaker_notes_txt (self st) ++ [k])
               (k :: notes_seen (self st))
               (slide_count (self st))) st.

Definition newline : str := [0x0A%N].

Section Methods.

Variable config : Config.
Variable env : Env.

(** [_add_watermark(slide)] *)
Definition _add_watermark (slide : nat) (st : Pass) : Pass :=
  if watermark_inserted env then on_slide slide (add_shape Picture) st
  else st.

(** [add_custom_title_slide(prs, heading, subheading, speaker_notes)] *)
Definition add_custom_title_slide (heading subheading speaker_notes : str)
  (st : Pass) : Pass :=
  let slide := length (prs st) in
  let st := with_prs (prs st ++ [new_slide 0]) st in
  let st := on_slide slide (set_title heading) st in
  let clean_subheading := strip (sub_subtitle_prefix subheading) in
  let st := on_slide slide (set_body (set_text clean_subheading)) st in
  let st :=
    if truthy speaker_notes then
      let st := on_slide slide (set_notes (strip speaker_notes)) st in
      let slide_index := slide in
      let notes_key := (slide_index + 1, strip speaker_notes) in
      if negb (mem key_eqb notes_key (notes_seen (self st)))
         && truthy (strip speaker_notes)
      then remember_note notes_key st
      else st
    else st in
  let st := _add_watermark slide st in
  count_slide st.

(** [_add_content_slide(prs, title)]: the new slide and, as content box,
    the text frame of its body placeholder. *)
Definition _add_content_slide (title : str) (st : Pass)
  : Pass * nat * ContentBox :=
  let slide := length (prs st) in
  let st := with_prs (prs st ++ [new_slide 1]) st in
  let clean_title := sub_slide_prefix title in
  let shown :=
    if (100 <? length clean_title)%nat
    then firstn 100 clean_title ++ lit "..."
    else clean_title in
  let st := on_slide slide (set_title shown) st in
  let st := on_slide slide (set_body [empty_paragraph]) st in
  let st := _add_watermark slide st in
  (count_slide st, slide, TextFrameOf slide).

(** [_ensure_slide(prs, current_slide, default_title)] *)
Definition _ensure_slide (current : option nat) (default_title : str)
  (st : Pass) : Pass * nat * ContentBox :=
  match current with
  | None => _add_content_slide default_title st
  | Some slide => (st, slide, PlaceholderOf slide)
  end.

(** [current_slide, content_box = self._ensure_slide(prs, current_slide,
    default_title)] *)
Definition ensure_current (default_title : str) (st : Pass)
  : Pass * ContentBox :=
  let '(st', slide, box) := _ensure_slide (current_slide st) default_title st in
  (with_current_slide (Some slide) st', box).

(** The argument [_add_code_content] receives as [code_text]: a string
    from the flush of the code buffer, the element itself from the
    dispatch on [pre] and [code]. *)
Inductive CodeArg : Type :=
| OfStr (s : str)
| OfTag (e : Element).

Definition add_paragraph (slide : nat) (p : Paragraph) (st : Pass) : Pass :=
  on_slide slide (fun s => set_body (body s ++ [p]) s) st.

(** The paragraph [_add_code_content] makes of a string. *)
Definition code_block (code_text : str) : Paragraph :=
  mkParagraph (slice_to (max_slide_content_length config) code_text)
    0 true CourierNew20.

(** [_add_code_content(content_box, code_text)].

    On a string: nothing for a blank one; else [content_box.text_frame]
    is looked up, which a text frame does not have, and the paragraph is
    added to the placeholder's frame.

    On a tag, [code_text.strip] is no string method: the tree library
    resolves an unknown attribute of a tag to its first descendant of that
    name, here a tag named [strip], and [None] without one; calling
    [None] raises. Calling a tag lists the tags below it; an empty list
    returns at once, a non-empty one goes on to add a paragraph and then
    fails on [code_text[:n]], a tag taking a subscript for an attribute
    name. *)
Definition _add_code_content (content_box : ContentBox) (code_text : CodeArg)
  (st : Pass) : result Pass :=
  match code_text with
  | OfStr s =>
      if negb (truthy (strip s)) then Ok st
      else
        match content_box with
        | TextFrameOf _ => Raise AttributeError st
        | PlaceholderOf slide => Ok (add_paragraph slide (code_block s) st)
        end
  | OfTag e =>
      match find_all ["strip"] [] (node e) with
      | [] => Raise TypeError st
      | found :: _ =>
          match descendants [] (node found) with
          | [] => Ok st
          | _ :: _ =>
              match content_box with
              | TextFrameOf _ => Raise AttributeError st
              | PlaceholderOf slide =>
                  Raise TypeError (add_paragraph slide empty_paragraph st)
              end
          end
      end
  end.

(** The display text of a list item: its text nodes stripped, its tags
    other than nested lists by their text, all joined by one space. *)
Definition li_text (li : PageElement) : str :=
  let text_parts :=
    flat_map (fun item =>
      match item with
      | NavigableString s => [strip s]
      | Tag _ n _ _ =>
          if name_in ["ul"; "ol"] n then []
          else [get_text_sep (lit " ") item]
      end) (children li) in
  strip (join (lit " ") text_parts).

(** The frame holds one paragraph and it is blank. *)
Definition single_blank (frame : list Paragraph) : bool :=
  match frame with
  | [p] => negb (truthy (strip (p_text p)))
  | _ => false
  end.

(** One list item written to the frame. The font is the fallback one:
    [_set_font_safely] calls [_get_appropriate_font], which the class does
    not define, and recovers in its [except] branch. *)
Definition write_item (text : str) (level : nat) (frame : list Paragraph)
  : list Paragraph :=
  match frame with
  | [p] =>
      if negb (truthy (strip (p_text p)))
      then [mkParagraph text (Nat.min level 4) (p_bu_none p) Arial22]
      else frame ++ [mkParagraph text (Nat.min level 4) false Arial22]
  | _ => frame ++ [mkParagraph text (Nat.min level 4) false Arial22]
  end.

(** [_process_list_recursive(content_box, list_element, level)], on the
    paragraphs of the frame. *)
Fixpoint _process_list_recursive (level : nat) (list_element : PageElement)
  (frame : list Paragraph) {struct list_element} : list Paragraph :=
  match list_element with
  | NavigableString _ => frame
  | Tag _ _ _ kids =>
      let frame := if single_blank frame then [] else frame in
      (fix items (l : list PageElement) (frame : list Paragraph)
         : list Paragraph :=
         match l with
         | [] => frame
         | li :: l' =>
             match li with
             | Tag _ n _ li_kids =>
                 if String.eqb n "li" then
                   let text := li_text li in
                   let frame :=
                     if truthy text then write_item text level frame
                     else frame in
                   let frame :=
                     (fix nested (ns : list PageElement)
                        (frame : list Paragraph) : list Paragraph :=
                        match ns with
                        | [] => frame
                        | x :: ns' =>
                            match x with
                            | Tag _ m _ _ =>
                                if name_in ["ul"; "ol"] m
                                then nested ns'
                                       (_process_list_recursive (S level) x
                                          frame)
                                else nested ns' frame
                            | NavigableString _ => nested ns' frame
                            end
                        end) li_kids frame in
                   items l' frame
                 else items l' frame
             | NavigableString _ => items l' frame
             end
         end) kids frame
  end.

(** [_add_list_content(content_box, list_element)] *)
Definition _add_list_content (content_box : ContentBox)
  (list_element : PageElement) (st : Pass) : result Pass :=
  match content_box with
  | TextFrameOf _ => Raise AttributeError st
  | PlaceholderOf slide =>
      Ok (on_slide slide
            (fun s => set_body (_process_list_recursive 0 list_element (body s)) s)
            st)
  end.

(** The cells of a row: [row.find_all(["td", "th"])]. *)
Definition row_cells (row : Element) : list Element :=
  find_all ["td"; "th"] [] (node row).

(** The text written to the cells of one table row: for each of the
    [max_cols] columns, the text of the cell when the row has one there,
    cut to 200 characters, and the empty string otherwise. *)
Definition row_texts (max_cols : nat) (row : Element) : list str :=
  map (fun j =>
    match nth_error (row_cells row) j with
    | Some cell => slice_to 200 (get_text (node cell))
    | None => []
    end) (seq 0 max_cols).

(** The table shape [_add_table_to_slide] adds for [table_element], if
    any. With rows but no cell at all, [max()] has nothing to work on and
    raises, which the method catches. *)
Definition table_shape (table_element : PageElement) : option Shape :=
  let rows := find_all ["tr"] [] table_element in
  match rows with
  | [] => None
  | first_row :: _ =>
      match max_of (map (fun row => length (row_cells row))
                      (filter (fun row => (0 <? length (row_cells row))%nat) rows))
      with
      | None => None
      | Some max_cols =>
          let num_rows := length rows in
          if ((max_cols =? 0) || (num_rows =? 0))%nat then None
          else
            Some (Table (map (row_texts max_cols) rows)
                    (existsb (fun cell => String.eqb (el_name cell) "th")
                       (row_cells first_row)))
      end
  end.

(** [_add_table_to_slide(slide, table_element)] *)
Definition _add_table_to_slide (slide : nat) (table_element : PageElement)
  (st : Pass) : Pass :=
  match table_shape table_element with
  | Some shape => on_slide slide (add_shape shape) st
  | None => st
  end.

(** The tags [_process_content_elements] asks [find_all] for. *)
Definition interesting : list string :=
  ["h1"; "h2"; "h3"; "h4"; "h5"; "h6";
   "p"; "ul"; "ol"; "table"; "pre"; "code";
   "blockquote"; "img"; "span"; "div"].

Definition headings : list string := ["h1"; "h2"; "h3"; "h4"; "h5"; "h6"].

(** [element.name == "div" and "cm-line" in element.get("class", [])] *)
Definition is_cm_line (element : Element) : bool :=
  String.eqb (el_name element) "div"
  && mem String.eqb "cm-line" (el_class element).

(** The flush of the code buffer, as written at lines 347-350 and again at
    lines 409-411 (the second one without clearing the buffer). *)
Definition flush_code_buffer (clear : bool) (st : Pass) : result Pass :=
  match code_buffer st with
  | [] => Ok st
  | _ :: _ =>
      let '(st, content_box) := ensure_current (lit "Content") st in
      st <- _add_code_content content_box
              (OfStr (join newline (code_buffer st))) st ;;
      Ok (if clear then with_code_buffer [] st else st)
  end.

(** The [try] block of the loop body, lines 370-401, up to the point where
    the [except] clause takes over. [true] in the result says that the
    block ended with [continue]. *)
Definition dispatch (element : Element) (st : Pass)
  : result (Pass * bool) :=
  let element_id := el_id element in
  let element_type := el_name element in
  if name_in headings element_type then
    let '(st, slide, _) := _add_content_slide (get_text (node element)) st in
    let st := with_current_slide (Some slide) st in
    Ok (mark_processed element_id st, false)
  else if name_in ["ol"; "ul"] element_type
          && negb (has_parent ["ul"; "ol"] element) then
    let '(st, content_box) := ensure_current (lit "List") st in
    match _add_list_content content_box (node element) st with
    | Ok st => Ok (mark_processed element_id st, true)
    | Raise e st => Raise e (st, true)
    end
  else if String.eqb element_type "table" then
    let '(st, _) := ensure_current (lit "Content") st in
    let st :=
      match current_slide st with
      | Some slide => _add_table_to_slide slide (node element) st
      | None => st
      end in
    Ok (mark_processed element_id st, true)
  else if name_in ["pre"; "code"] element_type then
    let '(st, content_box) := ensure_current (lit "Code") st in
    match _add_code_content content_box (OfTag element) st with
    | Ok st => Ok (st, true)
    | Raise e st => Raise e (st, true)
    end
  else Ok (mark_processed element_id st, false).

(** One turn of the loop of [_process_content_elements], lines 308-411. *)
Definition iteration (element : Element) (st : Pass) : result Pass :=
  let element_id := el_id element in
  if mem Nat.eqb element_id (processed_elements st) then Ok st
  else
    let element_text := get_text (node element) in
    match split_notes element_text with
    | Some (content_part, notes_part) =>
        (* speaker notes: lines 319-335 *)
        let st :=
          match current_slide st with
          | Some slide =>
              let st := on_slide slide touch_notes st in
              let notes_key :=
                (slide_count (self st), strip notes_part) in
              if truthy (strip notes_part)
                 && negb (mem key_eqb notes_key (notes_seen (self st)))
              then on_slide slide (set_notes (strip notes_part))
                     (remember_note notes_key st)
              else st
          | None => st
          end in
        Ok (mark_processed element_id st)
    | None =>
        if is_cm_line element then
          (* lines 338-344 *)
          let code_text := get_text (node element) in
          let st :=
            if truthy code_text
            then with_code_buffer (code_buffer st ++ [code_text]) st
            else st in
          Ok (mark_processed element_id st)
        else
          (* lines 347-350 *)
          st <- flush_code_buffer true st ;;
          (* lines 353-368 *)
          if name_in ["p"; "span"] (el_name element)
             && has_parent ["ul"; "ol"; "li"] element
          then Ok (mark_processed element_id st)
          else if String.eqb (el_name element) "p"
                  && has_parent ["li"] element
          then Ok (mark_processed element_id st)
          else if String.eqb (el_name element) "span"
                  && (has_parent ["p"] element || has_parent ["li"] element)
          then Ok (mark_processed element_id st)
          else if String.eqb (el_name element) "code"
                  && has_parent ["pre"] element
          then Ok (mark_processed element_id st)
          else
            (* lines 370-406 *)
            match dispatch element st with
            | Raise _ (st, _) => Ok (mark_processed element_id st)
            | Ok (st, true) => Ok st
            | Ok (st, false) =>
                (* lines 408-411 *)
                flush_code_buffer false st
            end
    end.

(** The [for] loop. An exception that leaves a turn leaves the loop. *)
Fixpoint for_each (elements : list Element) (st : Pass) : result Pass :=
  match elements with
  | [] => Ok st
  | element :: rest =>
      st <- iteration element st ;;
      for_each rest st
  end.

(** [_process_content_elements(prs, content_div)] *)
Definition _process_content_elements (content_div : Element) (st : Pass)
  : result Pass :=
  let st := mkPass (self st) (prs st) None [] [] in
  for_each (find_all interesting (parents content_div) (node content_div))
    st.

(** [_add_fallback_slide(prs, title, content)] *)
Definition _add_fallback_slide (title content : str) (st : Pass) : Pass :=
  let slide := length (prs st) in
  let st := with_prs (prs st ++ [new_slide 1]) st in
  let st := on_slide slide (set_title title) st in
  let st := on_slide slide (set_body (set_text content)) st in
  count_slide st.

(** The notes [_save_speaker_notes_textfile] keeps: stripped, non-empty,
    each key once, in the order of the list. *)
Fixpoint cleaned_notes (seen : list NoteKey)
  (speaker_notes_list : list NoteKey) : list NoteKey :=
  match speaker_notes_list with
  | [] => []
  | (slide_num, note) :: rest =>
      let note := strip note in
      let key := (slide_num, note) in
      if truthy note && negb (mem key_eqb key seen)
      then (slide_num, note) :: cleaned_notes (key :: seen) rest
      else cleaned_notes seen rest
  end.

(** One [f.write(...)] of the notes file: the text
    [Slide <N>:], a newline, the note, two newlines. *)
Definition notes_block (k : NoteKey) : str :=
  lit "Slide " ++ of_nat (fst k) ++ lit ":" ++ newline
    ++ strip (snd k) ++ newline ++ newline.

(** The blocks [_save_speaker_notes_textfile] writes, in order. *)
Definition notes_blocks (speaker_notes_list : list NoteKey) : list str :=
  map notes_block (cleaned_notes [] speaker_notes_list).

(** The contents of the notes file. *)
Definition _save_speaker_notes_textfile (speaker_notes_list : list NoteKey)
  : str :=
  concat (notes_blocks speaker_notes_list).

(** Truth value of an optional string ([None] and the empty string are
    false). *)
Definition given (o : option str) : bool :=
  match o with Some s => truthy s | None => false end.

(** [o or default] *)
Definition or_else (o : option str) (default : str) : str :=
  match o with
  | Some s => if truthy s then s else default
  | None => default
  end.

(** The variables of the title extraction, lines 197-224, together with
    the tree, which [decompose()] changes. *)
Record TitleScan : Type := mkTitleScan {
  tree : PageElement;
  heading : option str;
  subheading : option str;
  speaker_notes : option str
}.

(** The second loop of [create_enhanced_presentation], lines 201-224, over
    the tags found before the loop starts. (The first loop, lines 194-196,
    only reads.) *)
Fixpoint title_scan (elements : list Element) (s : TitleScan) : TitleScan :=
  match elements with
  | [] => s
  | el :: rest =>
      let text := sub_slide_prefix (current_text (el_id el) (tree s)) in
      match split_notes text with
      | Some (_, notes) =>
          title_scan rest
            (mkTitleScan (decompose (el_id el) (tree s))
               (heading s) (subheading s) (Some (strip notes)))
      | None =>
          let s :=
            if negb (given (heading s)) then
              mkTitleScan (decompose (el_id el) (tree s))
                (Some text) (subheading s) (speaker_notes s)
            else if negb (given (subheading s)) then
              mkTitleScan (decompose (el_id el) (tree s))
                (heading s) (Some text) (speaker_notes s)
            else s in
          if given (heading s) && given (subheading s)
             && given (speaker_notes s)
          then s
          else title_scan rest s
      end
  end.

(** What a conversion leaves behind: the value returned, the generator,
    the presentation in memory, and the two files if written. *)
Record Conversion : Type := mkConversion {
  returned : bool;
  generator : Generator;
  presentation : list Slide;
  pptx_file : option (list Slide);
  notes_file : option str
}.

(** [create_enhanced_presentation(content_div, output_path)] *)
Definition create_enhanced_presentation (g : Generator)
  (content_div : Element) : Conversion :=
  let st := mkPass g [] None [] [] in
  let elements :=
    find_all ["h1"; "h2"; "p"] (parents content_div) (node content_div) in
  let s := title_scan elements
             (mkTitleScan (node content_div) None None None) in
  let st := add_custom_title_slide
              (or_else (heading s) (lit " "))
              (or_else (subheading s) (lit " "))
              (or_else (speaker_notes s) []) st in
  match _process_content_elements
          (mkElement (parents content_div) (tree s)) st with
  | Raise _ st =>
      mkConversion false (self st) (prs st) None None
  | Ok st =>
      let st :=
        if (length (prs st) =? 0)%nat
        then _add_fallback_slide (lit "No Content Found")
               (lit "The canvas appears to be empty or could not be processed.")
               st
        else st in
      if presentation_writable env then
        mkConversion true (self st) (prs st) (Some (prs st))
          (match speaker_notes_txt (self st) with
           | [] => None
           | _ :: _ =>
               if notes_file_writable env
               then Some (_save_speaker_notes_textfile
                            (speaker_notes_txt (self st)))
               else None
           end)
      else mkConversion false (self st) (prs st) None None
  end.

End Methods.

(** A fresh generator converting one document. *)
Definition convert (env : Env) (content_div : Element) : Conversion :=
  create_enhanced_presentation default_config env init content_div.

End PowerPointGenerator.

(* ================================================================== *)
(** ** Documents used as examples *)
(* ================================================================== *)

Module Examples.
Import Py Bs4 Pptx PowerPointGenerator.

Local Open Scope string_scope.
Local Open Scope list_scope.

(** A tag holding one text node. *)
Definition leaf (i : nat) (name : string) (text : string) : PageElement :=
  Tag i name [] [NavigableString (lit text)].

(** [<div class="cm-line">text</div>] *)
Definition cm_line (i : nat) (text : string) : PageElement :=
  Tag i "div" ["cm-line"] [NavigableString (lit text)].

(** A fragment: a [div] that is the root of its tree. *)
Definition fragment (kids : list PageElement) : Element :=
  mkElement [] (Tag 0 "div" [] kids).

Definition quiet : Env := mkEnv false true true.

(** Nothing at all. *)
Definition empty_canvas : Element := fragment [].

(** A heading, a paragraph carrying a note, and a 2x2 table. *)
Definition table_2x2 : PageElement :=
  Tag 3 "table" []
    [Tag 4 "tr" [] [leaf 5 "td" "a"; leaf 6 "td" "b"];
     Tag 7 "tr" [] [leaf 8 "td" "c"; leaf 9 "td" "d"]].

Definition intro_canvas (h : string) : Element :=
  fragment [leaf 1 h "Intro";
            leaf 2 "p" "Hello Speaker Notes: remember the demo";
            table_2x2].

(** A heading followed by a preformatted block. *)
Definition pre_canvas : Element :=
  fragment [leaf 1 "h3" "T"; leaf 2 "pre" "x = 1"].

(** A heading followed by one code line, the last node of the document. *)
Definition trailing_code_canvas : Element :=
  fragment [leaf 1 "h3" "T"; cm_line 2 "x"].

(** Three code lines and a block quote, no heading before them. *)
Definition code_run_canvas : Element :=
  fragment [cm_line 1 "a"; cm_line 2 "b"; cm_line 3 "c";
            leaf 4 "blockquote" "q"].

(** Three code lines and a paragraph, as the main pass would meet them. *)
Definition code_run_then_paragraph : Element :=
  fragment [cm_line 1 "a"; cm_line 2 "b"; cm_line 3 "c"; leaf 4 "p" "x"].

(** The same under a heading. *)
Definition headed_code_run_canvas : Element :=
  fragment [leaf 9 "h3" "T"; cm_line 1 "a"; cm_line 2 "b"; cm_line 3 "c";
            leaf 4 "blockquote" "q"].

(** A table whose rows have 3, 1, 0 and 2 cells. *)
Definition ragged_table : PageElement :=
  Tag 1 "table" []
    [Tag 2 "tr" [] [leaf 3 "td" "a"; leaf 4 "td" "b"; leaf 5 "td" "c"];
     Tag 6 "tr" [] [leaf 7 "td" "d"];
     Tag 8 "tr" [] [];
     Tag 9 "tr" [] [leaf 10 "td" "e"; leaf 11 "td" "f"]].

(** A heading and two different notes for its slide. *)
Definition two_notes_canvas : Element :=
  fragment [leaf 1 "h3" "T";
            leaf 2 "div" "Speaker notes: a";
            leaf 3 "div" "Speaker notes: b"].

(** A note met before any slide is open. *)
Definition stray_note : Element :=
  mkElement ["div"] (leaf 1 "div" "Speaker notes: lost").

Definition idle : Pass := mkPass init [] None [] [].



Definition numbered_heading : Element :=
  mkElement ["div"] (leaf 5 "h2" "Slide 3: Overview").

Definition shopping_list : Element :=
  mkElement ["div"]
    (Tag 6 "ul" []
       [leaf 7 "li" "milk"; Tag 8 "li" [] []; leaf 9 "li" " eggs "]).

(** A generator that has recorded one note. *)
Definition used : Generator :=
  mkGenerator [(1, lit "n")] [(1, lit "n")] 1.

End Examples.

(* ================================================================== *)
(** ** What the properties are stated with *)
(* ================================================================== *)

Import Py Bs4 Pptx PowerPointGenerator.

Local Open Scope string_scope.
Local Open Scope list_scope.

(** The shapes the watermark puts on a slide. *)
Definition watermark (env : Env) : list Shape :=
  if watermark_inserted env then [Picture] else [].

(** The title slide of a document that offers neither heading nor
    subheading nor note. *)
Definition bare_title_slide (env : Env) : Slide :=
  mkSlide 0 (lit " ") (set_text [])
    (watermark env) None.

(** What C1 says of a conversion: it succeeds, and the deck is a title slide
    followed by a slide titled "No Content Found". *)
Definition title_then_fallback (c : Conversion) : Prop :=
  returned c = true
  /\ exists t f, presentation c = [t; f] /\ layout t = 0
       /\ title f = lit "No Content Found".

(** The table shape made of the 2x2 table of the examples. *)
Definition grid_2x2 : Shape :=
  Table [[lit "a"; lit "b"]; [lit "c"; lit "d"]] false.

(** What C2 says of the conversion of that document: a title slide, then a
    slide titled "Intro" with a table of 2 rows by 2 columns, and the one
    note "remember the demo" for slide 2. *)
Definition intro_slide_with_note_2 (c : Conversion) : Prop :=
  exists t s,
    presentation c = [t; s]
    /\ layout t = 0
    /\ title s = lit "Intro"
    /\ (exists cells header,
          In (Table cells header) (shapes s)
          /\ length cells = 2
          /\ Forall (fun line => length line = 2) cells)
    /\ speaker_notes_txt (generator c) = [(2, lit "remember the demo")].

(** What C5 says of the shape made of a table: as many lines as there are
    rows with at least one cell. *)
Definition rows_without_cells_left_out (table_element : PageElement) : Prop :=
  forall cells header,
    table_shape table_element = Some (Table cells header) ->
    length cells =
      length (filter (fun row => (0 <? length (row_cells row))%nat)
                (find_all ["tr"] [] table_element)).

(** The generator [g'] differs from [g] by slides counted only. *)
Definition notes_kept (g g' : Generator) : Prop :=
  speaker_notes_txt g' = speaker_notes_txt g
  /\ notes_seen g' = notes_seen g
  /\ slide_count g <= slide_count g'.

(** The generator [g'] is [g] with one note recorded for slide [n]: a
    stripped, non-empty text whose key was not seen before. *)
Definition note_added (n : nat) (g g' : Generator) : Prop :=
  exists text,
    truthy (strip text) = true
    /\ ~ In (n, strip text) (notes_seen g)
    /\ speaker_notes_txt g' = speaker_notes_txt g ++ [(n, strip text)]
    /\ notes_seen g' = (n, strip text) :: notes_seen g
    /\ slide_count g' = slide_count g.

(** Each key is in the notes list once, and the set of seen keys covers the
    list. *)
Definition notes_once (g : Generator) : Prop :=
  NoDup (speaker_notes_txt g)
  /\ incl (speaker_notes_txt g) (notes_seen g).

(** The notes are stripped and not empty. *)
Definition notes_clean (l : list NoteKey) : Prop :=
  Forall (fun k => strip (snd k) = snd k /\ truthy (snd k) = true) l.

(** The notes come by slide number, none beyond the slides counted. *)
Definition notes_in_slide_order (g : Generator) : Prop :=
  notes_clean (speaker_notes_txt g)
  /\ StronglySorted le (map fst (speaker_notes_txt g))
  /\ Forall (fun k => fst k <= slide_count g) (speaker_notes_txt g).

(** What C8 says of the notes file: no two blocks for the same slide. *)
Definition one_block_per_noted_slide (l : list NoteKey) : Prop :=
  NoDup (map fst (cleaned_notes [] l)).

(** An ASCII digit. *)
Definition ascii_digit (c : N) : Prop := (0x30 <= c <= 0x39)%N.

(** The layouts of the slides of the deck, in order. *)
Definition layouts (st : Pass) : list nat := map layout (prs st).

(** The notes of the slides of the deck, in order. *)
Definition slide_notes (st : Pass) : list (option str) := map notes (prs st).

(** The open slide, if there is one, is the last slide of the deck. *)
Definition current_is_last (st : Pass) : Prop :=
  forall i, current_slide st = Some i -> S i = length (prs st).

(** From [st] to [st'], [k] content slides were added at the end of the
    deck and counted; the slides that were there kept their layout and
    their notes, and the notes list is the same. *)
Definition slides_added (k : nat) (st st' : Pass) : Prop :=
  layouts st' = layouts st ++ repeat 1 k
  /\ slide_notes st' = slide_notes st ++ repeat None k
  /\ slide_count (self st') = slide_count (self st) + k
  /\ speaker_notes_txt (self st') = speaker_notes_txt (self st)
  /\ notes_seen (self st') = notes_seen (self st).

(** Every note of the list is for a slide of the deck, and that slide
    carries a note recorded for it. The slides counted are those of the
    deck. *)
Definition notes_point_to_slides (st : Pass) : Prop :=
  slide_count (self st) = length (prs st)
  /\ current_is_last st
  /\ forall n t, In (n, t) (speaker_notes_txt (self st)) ->
       1 <= n
       /\ exists t', nth_error (slide_notes st) (n - 1) = Some (Some t')
                     /\ In (n, t') (speaker_notes_txt (self st)).

(** What the steps of a turn other than the recording of a note do to the
    deck: slides are added at its end, and an open slide stays the last. *)
Definition deck_grows (st st' : Pass) : Prop :=
  (exists k, slides_added k st st')
  /\ (current_is_last st -> current_is_last st').

(** The deck is a title slide followed by content slides, and the slides
    counted since the generator was [g] are those of the deck. *)
Definition title_then_content (g : Generator) (st : Pass) : Prop :=
  (exists m, layouts st = 0 :: repeat 1 m)
  /\ slide_count (self st) = slide_count g + length (prs st).

(** The number of nodes of a tree. *)
Fixpoint size (p : PageElement) : nat :=
  match p with
  | NavigableString _ => 1
  | Tag _ _ _ kids =>
      S ((fix sum (l : list PageElement) : nat :=
            match l with
            | [] => 0
            | k :: l' => size k + sum l'
            end) kids)
  end.

(** Every paragraph of every slide of a deck satisfies [ok]. *)
Definition every_paragraph (ok : Paragraph -> Prop) (deck : list Slide)
  : Prop :=
  Forall (fun s => Forall ok (body s)) deck.

(** From [st] to [st'], the slides of the deck other than the open one are
    kept as they are, slides are added at the end only, and the slide open
    afterwards is the one that was open or one of those added. *)
Definition open_slide_only (st st' : Pass) : Prop :=
  length (prs st) <= length (prs st')
  /\ (current_slide st' = current_slide st
      \/ exists i, current_slide st' = Some i /\ length (prs st) <= i)
  /\ forall j, j < length (prs st) -> current_slide st <> Some j ->
       nth_error (prs st') j = nth_error (prs st) j.

(* ================================================================== *)
(** ** Properties *)
(* ================================================================== *)

Lemma str_eqb_eq (a b : str) : str_eqb a b = true <-> a = b.
Proof.
  unfold str_eqb. destruct (list_eq_dec N.eq_dec a b); split; congruence.
Qed.

(** *** Speaker notes met while no slide is open *)

(** C10. In the main pass, a node that is visited while no slide is open and
    whose text carries the speaker-notes marker changes nothing but the set
    of processed nodes: the generator (notes list, set of seen keys, slide
    count), the slides, the open slide and the code buffer are as before,
    and the node is marked processed. *)
Theorem note_without_open_slide_is_discarded
  (config : Config) (env : Env) (element : Element) (st : Pass) :
  current_slide st = None ->
  mem Nat.eqb (el_id element) (processed_elements st) = false ->
  split_notes (get_text (node element)) <> None ->
  exists st',
    iteration config env element st = Ok st'
    /\ self st' = self st
    /\ prs st' = prs st
    /\ current_slide st' = None
    /\ code_buffer st' = code_buffer st
    /\ processed_elements st' = el_id element :: processed_elements st.
Proof.
  intros Hnone Hfresh Hmatch.
  exists (mark_processed (el_id element) st).
  unfold iteration. rewrite Hfresh.
  destruct (split_notes (get_text (node element))) as [[content_part notes_part]|];
    [|congruence].
  rewrite Hnone. cbn. repeat split; auto.
Qed.

Lemma note_without_open_slide_is_discarded_witness :
  exists st',
    iteration default_config Examples.quiet Examples.stray_note Examples.idle
      = Ok st'
    /\ self st' = self Examples.idle
    /\ prs st' = prs Examples.idle
    /\ current_slide st' = None
    /\ code_buffer st' = code_buffer Examples.idle
    /\ processed_elements st' = [1].
Proof.
  apply (note_without_open_slide_is_discarded default_config Examples.quiet
           Examples.stray_note Examples.idle).
  - reflexivity.
  - reflexivity.
  - vm_compute. discriminate.
Defined.

(** *** A document without interesting nodes *)

Lemma filter_nil_weaken {A : Type} (f g : A -> bool) (l : list A) :
  (forall x, g x = true -> f x = true) ->
  filter f l = [] -> filter g l = [].
Proof.
  intros Hfg. induction l as [|x l IH]; cbn; [reflexivity|].
  destruct (f x) eqn:Hf; [discriminate|].
  destruct (g x) eqn:Hg.
  - apply Hfg in Hg. congruence.
  - exact IH.
Qed.

(** The tags of the title extraction are among those of the main pass. *)
Lemma title_tags_interesting (n : string) :
  name_in ["h1"; "h2"; "p"] n = true -> name_in interesting n = true.
Proof.
  unfold name_in, mem, interesting. cbn. intros H.
  repeat (apply orb_true_iff in H as [H|H]);
    try discriminate; rewrite H; cbn; rewrite ?orb_true_r; reflexivity.
Qed.

Lemma find_all_title_nil (ps : list string) (p : PageElement) :
  find_all interesting ps p = [] -> find_all ["h1"; "h2"; "p"] ps p = [].
Proof.
  unfold find_all. apply filter_nil_weaken.
  intros e. apply title_tags_interesting.
Qed.

(** C1, counterexample. The empty fragment converts to a deck of one slide:
    no fallback slide follows the title slide. *)
Lemma empty_canvas_has_no_fallback_slide :
  ~ title_then_fallback (convert Examples.quiet Examples.empty_canvas).
Proof.
  intros [_ (t & f & Hdeck & _)]. vm_compute in Hdeck. discriminate.
Qed.

(** C1, amended. For every document without interesting nodes the
    conversion succeeds (the presentation being writable) and the deck is
    exactly the title slide, with a one-space heading and an empty
    subtitle; the fallback slide is not added, the deck not being empty; no
    note is recorded. *)
Theorem no_interesting_nodes_title_slide_only
  (config : Config) (env : Env) (g : Generator) (content_div : Element) :
  find_all interesting (parents content_div) (node content_div) = [] ->
  presentation_writable env = true ->
  let c := create_enhanced_presentation config env g content_div in
  returned c = true
  /\ presentation c = [bare_title_slide env]
  /\ pptx_file c = Some [bare_title_slide env]
  /\ speaker_notes_txt (generator c) = speaker_notes_txt g
  /\ slide_count (generator c) = S (slide_count g).
Proof.
  intros Hnone Hsave.
  unfold create_enhanced_presentation.
  rewrite (find_all_title_nil _ _ Hnone). cbn [title_scan tree heading
    subheading speaker_notes or_else].
  unfold _process_content_elements. cbn [parents node].
  rewrite Hnone. cbn [for_each self prs].
  unfold add_custom_title_slide, _add_watermark, bare_title_slide, watermark.
  rewrite Hsave.
  destruct (watermark_inserted env); cbn; repeat split; reflexivity.
Qed.

Lemma no_interesting_nodes_title_slide_only_witness :
  let c := create_enhanced_presentation default_config Examples.quiet init
             Examples.empty_canvas in
  returned c = true
  /\ presentation c = [bare_title_slide Examples.quiet]
  /\ pptx_file c = Some [bare_title_slide Examples.quiet]
  /\ speaker_notes_txt (generator c) = speaker_notes_txt init
  /\ slide_count (generator c) = S (slide_count init).
Proof.
  apply (no_interesting_nodes_title_slide_only default_config Examples.quiet
           init Examples.empty_canvas); reflexivity.
Defined.

(** *** Tables *)

Lemma fold_left_max_bounds (r : list nat) (x : nat) :
  x <= fold_left Nat.max r x
  /\ (forall y, In y r -> y <= fold_left Nat.max r x)
  /\ (fold_left Nat.max r x = x \/ In (fold_left Nat.max r x) r).
Proof.
  revert x. induction r as [|a r IH]; intros x; cbn.
  - repeat split; auto. intros y [].
  - destruct (IH (Nat.max x a)) as (Hx & Hall & Hin).
    repeat split.
    + lia.
    + intros y [<-|Hy]; [lia | auto].
    + destruct Hin as [Heq|Hin]; [|auto].
      rewrite Heq. destruct (Nat.max_spec x a) as [[_ ->]|[_ ->]]; auto.
Qed.

Lemma max_of_spec (l : list nat) (m : nat) :
  max_of l = Some m -> In m l /\ forall y, In y l -> y <= m.
Proof.
  destruct l as [|x r]; cbn; [discriminate|].
  intros [= <-].
  destruct (fold_left_max_bounds r x) as (Hx & Hall & Hin).
  split.
  - destruct Hin as [->|Hin]; auto.
  - intros y [<-|Hy]; auto.
Qed.

Lemma max_of_nonempty (l : list nat) :
  l <> [] -> exists m, max_of l = Some m.
Proof.
  destruct l as [|x r]; [congruence|]. intros _. cbn. eauto.
Qed.

Lemma row_texts_length (max_cols : nat) (row : Element) :
  length (row_texts max_cols row) = max_cols.
Proof.
  unfold row_texts. now rewrite length_map, length_seq.
Qed.

Lemma row_texts_nth (max_cols : nat) (row : Element) (j : nat) :
  j < max_cols ->
  nth_error (row_texts max_cols row) j =
    Some (match nth_error (row_cells row) j with
          | Some cell => slice_to 200 (get_text (node cell))
          | None => []
          end).
Proof.
  intros Hj. unfold row_texts.
  rewrite nth_error_map.
  rewrite (nth_error_nth' (seq 0 max_cols) 0) by now rewrite length_seq.
  rewrite seq_nth by exact Hj. reflexivity.
Qed.

(** C5, counterexample. The table with rows of 3, 1, 0 and 2 cells becomes
    a grid of 4 lines by 3 columns: the row without cells is a line of three
    empty strings. *)
Lemma ragged_table_keeps_its_empty_row :
  table_shape Examples.ragged_table =
    Some (Table [[lit "a"; lit "b"; lit "c"];
                 [lit "d"; []; []];
                 [[]; []; []];
                 [lit "e"; lit "f"; []]] false)
  /\ ~ rows_without_cells_left_out Examples.ragged_table.
Proof.
  split; [vm_compute; reflexivity|].
  intros H. specialize (H _ _ eq_refl). vm_compute in H. discriminate.
Qed.

(** C5, amended. For every table with at least one cell, the grid has one
    line per row of the table, the rows without cells included; its number
    of columns is the largest number of cells of a row; the line of a row
    holds the texts of its cells, cut to 200 characters, and the empty
    string in every column the row has no cell for (so a row without cells
    is a line of empty strings). *)
Theorem table_grid_has_a_line_per_row (table_element : PageElement) :
  let rows := find_all ["tr"] [] table_element in
  (exists row, In row rows /\ row_cells row <> []) ->
  exists cells header max_cols,
    table_shape table_element = Some (Table cells header)
    /\ length cells = length rows
    /\ (forall row, In row rows -> length (row_cells row) <= max_cols)
    /\ (exists row, In row rows /\ length (row_cells row) = max_cols)
    /\ (forall i row, nth_error rows i = Some row ->
          exists line,
            nth_error cells i = Some line
            /\ length line = max_cols
            /\ forall j, j < max_cols ->
                 nth_error line j =
                   Some (match nth_error (row_cells row) j with
                         | Some cell => slice_to 200 (get_text (node cell))
                         | None => []
                         end)).
Proof.
  intros rows (row0 & Hin0 & Hcells0).
  unfold table_shape. fold rows.
  destruct rows as [|first_row rest] eqn:Hrows; [destruct Hin0|].
  rewrite <- Hrows in *.
  set (with_cells := filter (fun row => (0 <? length (row_cells row))%nat) rows).
  assert (Hrow0 : In row0 with_cells).
  { apply filter_In. split; [exact Hin0|].
    apply Nat.ltb_lt. destruct (row_cells row0); [congruence|cbn; lia]. }
  destruct (max_of_nonempty (map (fun row => length (row_cells row)) with_cells))
    as [max_cols Hmax].
  { intros Hnil. apply map_eq_nil in Hnil. rewrite Hnil in Hrow0.
    destruct Hrow0. }
  rewrite Hmax.
  destruct (max_of_spec _ _ Hmax) as (Hmem & Hle).
  apply in_map_iff in Hmem as (rowm & Hlen & Hrowm).
  apply filter_In in Hrowm as (Hrowm & Hpos). apply Nat.ltb_lt in Hpos.
  assert (Hm : (max_cols =? 0)%nat = false) by (apply Nat.eqb_neq; lia).
  assert (Hn : (length rows =? 0)%nat = false)
    by (rewrite Hrows; reflexivity).
  rewrite Hm, Hn. cbn [orb].
  eexists _, _, max_cols. split; [reflexivity|].
  split; [now rewrite length_map|].
  split.
  { intros row Hrow.
    destruct (length (row_cells row)) as [|k] eqn:Hk; [lia|].
    rewrite <- Hk. apply Hle. apply in_map_iff. exists row. split; auto.
    apply filter_In. split; auto. apply Nat.ltb_lt. lia. }
  split; [exists rowm; auto|].
  intros i row Hi. exists (row_texts max_cols row).
  split; [rewrite nth_error_map, Hi; reflexivity|].
  split; [apply row_texts_length|].
  intros j Hj. now apply row_texts_nth.
Qed.

Lemma table_grid_has_a_line_per_row_witness :
  exists cells header max_cols,
    table_shape Examples.ragged_table = Some (Table cells header)
    /\ length cells = 4
    /\ (forall row, In row (find_all ["tr"] [] Examples.ragged_table) ->
          length (row_cells row) <= max_cols)
    /\ (exists row, In row (find_all ["tr"] [] Examples.ragged_table)
          /\ length (row_cells row) = max_cols)
    /\ (forall i row,
          nth_error (find_all ["tr"] [] Examples.ragged_table) i = Some row ->
          exists line,
            nth_error cells i = Some line
            /\ length line = max_cols
            /\ forall j, j < max_cols ->
                 nth_error line j =
                   Some (match nth_error (row_cells row) j with
                         | Some cell => slice_to 200 (get_text (node cell))
                         | None => []
                         end)).
Proof.
  apply (table_grid_has_a_line_per_row Examples.ragged_table).
  eexists. split; [left; reflexivity|]. vm_compute. discriminate.
Defined.

(** *** The notes the generator accumulates *)

Lemma key_eqb_eq (a b : NoteKey) : key_eqb a b = true <-> a = b.
Proof.
  destruct a as [n s], b as [m t]. unfold key_eqb. cbn.
  rewrite andb_true_iff, Nat.eqb_eq, str_eqb_eq.
  split; [intros [-> ->]; reflexivity | intros [= -> ->]; auto].
Qed.

Lemma mem_key_In (k : NoteKey) (l : list NoteKey) :
  mem key_eqb k l = true <-> In k l.
Proof.
  unfold mem. rewrite existsb_exists. split.
  - intros (x & Hx & Heq). apply key_eqb_eq in Heq. now subst.
  - intros Hin. exists k. split; [exact Hin | now apply key_eqb_eq].
Qed.

Lemma mem_key_not_In (k : NoteKey) (l : list NoteKey) :
  mem key_eqb k l = false -> ~ In k l.
Proof.
  intros Hmem Hin. apply mem_key_In in Hin. congruence.
Qed.

Lemma notes_kept_refl (g : Generator) : notes_kept g g.
Proof. unfold notes_kept. auto. Qed.

Lemma notes_kept_trans (g1 g2 g3 : Generator) :
  notes_kept g1 g2 -> notes_kept g2 g3 -> notes_kept g1 g3.
Proof.
  unfold notes_kept. intros (H1 & H2 & H3) (H4 & H5 & H6).
  repeat split; try congruence; lia.
Qed.

Lemma add_content_slide_keeps (env : Env) (title_text : str) (st : Pass) :
  notes_kept (self st) (self (fst (fst (_add_content_slide env title_text st)))).
Proof.
  unfold _add_content_slide, _add_watermark, notes_kept.
  destruct (watermark_inserted env); cbn; auto.
Qed.

Lemma ensure_current_keeps (env : Env) (default_title : str) (st : Pass) :
  notes_kept (self st) (self (fst (ensure_current env default_title st))).
Proof.
  unfold ensure_current, _ensure_slide.
  destruct (current_slide st) as [slide|].
  - cbn. apply notes_kept_refl.
  - pose proof (add_content_slide_keeps env default_title st) as H.
    destruct (_add_content_slide env default_title st) as [[st' slide] box].
    exact H.
Qed.

Lemma add_code_content_keeps (config : Config) (box : ContentBox)
  (arg : CodeArg) (st : Pass) :
  self (state_of (_add_code_content config box arg st)) = self st.
Proof.
  unfold _add_code_content.
  destruct arg as [s|e].
  - destruct (negb (truthy (strip s))); [reflexivity|].
    destruct box; reflexivity.
  - destruct (find_all ["strip"] [] (node e)) as [|found rest]; [reflexivity|].
    destruct (descendants [] (node found)); [reflexivity|].
    destruct box; reflexivity.
Qed.

Lemma add_list_content_keeps (box : ContentBox) (list_element : PageElement)
  (st : Pass) :
  self (state_of (_add_list_content box list_element st)) = self st.
Proof. destruct box; reflexivity. Qed.

Lemma add_table_to_slide_keeps (slide : nat) (table_element : PageElement)
  (st : Pass) :
  self (_add_table_to_slide slide table_element st) = self st.
Proof.
  unfold _add_table_to_slide. destruct (table_shape table_element); reflexivity.
Qed.

Lemma flush_code_buffer_keeps (config : Config) (env : Env) (clear : bool)
  (st : Pass) :
  notes_kept (self st)
    (self (state_of (flush_code_buffer config env clear st))).
Proof.
  unfold flush_code_buffer.
  destruct (code_buffer st) as [|line rest] eqn:Hbuf;
    [apply notes_kept_refl|].
  pose proof (ensure_current_keeps env (lit "Content") st) as Hens.
  destruct (ensure_current env (lit "Content") st) as [st1 box].
  cbn [fst] in Hens.
  pose proof (add_code_content_keeps config box
                (OfStr (join newline (code_buffer st1))) st1) as Hadd.
  destruct (_add_code_content config box
              (OfStr (join newline (code_buffer st1))) st1) as [st2|e st2];
    cbn [bind state_of] in *.
  - destruct clear; cbn; rewrite Hadd; exact Hens.
  - rewrite Hadd; exact Hens.
Qed.

Lemma dispatch_keeps (config : Config) (env : Env) (element : Element)
  (st : Pass) :
  notes_kept (self st)
    (self (fst (state_of (dispatch config env element st)))).
Proof.
  unfold dispatch.
  destruct (name_in headings (el_name element)).
  { pose proof (add_content_slide_keeps env (get_text (node element)) st) as H.
    destruct (_add_content_slide env (get_text (node element)) st)
      as [[st1 slide] box]. exact H. }
  destruct (name_in ["ol"; "ul"] (el_name element)
            && negb (has_parent ["ul"; "ol"] element)).
  { pose proof (ensure_current_keeps env (lit "List") st) as H.
    destruct (ensure_current env (lit "List") st) as [st1 box].
    pose proof (add_list_content_keeps box (node element) st1) as Hl.
    destruct (_add_list_content box (node element) st1); cbn in *;
      rewrite Hl; exact H. }
  destruct (String.eqb (el_name element) "table").
  { pose proof (ensure_current_keeps env (lit "Content") st) as H.
    destruct (ensure_current env (lit "Content") st) as [st1 box].
    cbn [fst] in H. cbn.
    destruct (current_slide st1); cbn;
      rewrite ?add_table_to_slide_keeps; exact H. }
  destruct (name_in ["pre"; "code"] (el_name element)).
  { pose proof (ensure_current_keeps env (lit "Code") st) as H.
    destruct (ensure_current env (lit "Code") st) as [st1 box].
    pose proof (add_code_content_keeps config box (OfTag element) st1) as Hc.
    destruct (_add_code_content config box (OfTag element) st1); cbn in *;
      rewrite Hc; exact H. }
  cbn. apply notes_kept_refl.
Qed.

(** One turn of the loop either keeps the notes or records one note for the
    slide counted last. *)
Lemma iteration_notes (config : Config) (env : Env) (element : Element)
  (st : Pass) :
  let g := self st in
  let g' := self (state_of (iteration config env element st)) in
  notes_kept g g' \/ note_added (slide_count g) g g'.
Proof.
  cbn zeta. unfold iteration.
  destruct (mem Nat.eqb (el_id element) (processed_elements st));
    [left; apply notes_kept_refl|].
  destruct (split_notes (get_text (node element)))
    as [[content_part notes_part]|].
  { destruct (current_slide st) as [slide|];
      [|left; apply notes_kept_refl].
    cbn [on_slide with_prs self].
    destruct (truthy (strip notes_part)) eqn:Htext;
      [|left; apply notes_kept_refl].
    destruct (mem key_eqb (slide_count (self st), strip notes_part)
                (notes_seen (self st))) eqn:Hseen;
      [left; apply notes_kept_refl|].
    right. exists notes_part. cbn.
    repeat split; auto. now apply mem_key_not_In. }
  destruct (is_cm_line element).
  { left. destruct (truthy (get_text (node element)));
      apply notes_kept_refl. }
  pose proof (flush_code_buffer_keeps config env true st) as Hflush.
  destruct (flush_code_buffer config env true st) as [st1|e st1];
    cbn [bind state_of] in *; [|left; exact Hflush].
  left.
  repeat match goal with
  | |- context [if ?b then Ok (mark_processed _ _) else _] =>
      destruct b; [exact Hflush|]
  end.
  pose proof (dispatch_keeps config env element st1) as Hd.
  destruct (dispatch config env element st1) as [[st2 continued]|e [st2 c]];
    cbn [state_of fst] in Hd.
  - destruct continued.
    + exact (notes_kept_trans _ _ _ Hflush Hd).
    + pose proof (flush_code_buffer_keeps config env false st2) as Hf2.
      exact (notes_kept_trans _ _ _ Hflush (notes_kept_trans _ _ _ Hd Hf2)).
  - exact (notes_kept_trans _ _ _ Hflush Hd).
Qed.

Lemma notes_once_kept (g g' : Generator) :
  notes_kept g g' -> notes_once g -> notes_once g'.
Proof.
  unfold notes_kept, notes_once. intros (-> & -> & _). auto.
Qed.

Lemma notes_once_added (n : nat) (g g' : Generator) :
  note_added n g g' -> notes_once g -> notes_once g'.
Proof.
  unfold notes_once.
  intros (text & _ & Hnew & Hn & Hs & _) (Hnodup & Hincl).
  rewrite Hn, Hs. split.
  - apply NoDup_app; [exact Hnodup | repeat constructor; intros [] | ].
    intros k Hk [<-|[]]. apply Hnew, Hincl, Hk.
  - intros k Hk. apply in_app_or in Hk as [Hk|[<-|[]]].
    + right. apply Hincl, Hk.
    + left. reflexivity.
Qed.

Lemma iteration_notes_once (config : Config) (env : Env) (element : Element)
  (st : Pass) :
  notes_once (self st) ->
  notes_once (self (state_of (iteration config env element st))).
Proof.
  intros Hinv.
  destruct (iteration_notes config env element st) as [H|H].
  - exact (notes_once_kept _ _ H Hinv).
  - exact (notes_once_added _ _ _ H Hinv).
Qed.

(** An invariant of the generator that every turn of the loop keeps is kept
    by the loop, whether it ends or is left by an exception. *)
Lemma for_each_invariant (config : Config) (env : Env)
  (I : Generator -> Prop) :
  (forall element st, I (self st) ->
     I (self (state_of (iteration config env element st)))) ->
  forall elements st, I (self st) ->
    I (self (state_of (for_each config env elements st))).
Proof.
  intros Hstep elements.
  induction elements as [|element rest IH]; intros st Hinv; [exact Hinv|].
  cbn [for_each]. specialize (Hstep element st Hinv).
  destruct (iteration config env element st) as [st1|e st1];
    cbn [bind state_of] in *; auto.
Qed.

Lemma title_slide_notes (env : Env) (heading_text subheading_text notes_text : str)
  (st : Pass) :
  let g := self st in
  let g' := self (add_custom_title_slide env heading_text subheading_text
                    notes_text st) in
  (speaker_notes_txt g' = speaker_notes_txt g
   /\ notes_seen g' = notes_seen g
   /\ slide_count g' = S (slide_count g))
  \/ exists g1, note_added (length (prs st) + 1) g g1
       /\ speaker_notes_txt g' = speaker_notes_txt g1
       /\ notes_seen g' = notes_seen g1
       /\ slide_count g' = S (slide_count g1).
Proof.
  cbn zeta. unfold add_custom_title_slide, _add_watermark.
  destruct (truthy notes_text);
    [|left; destruct (watermark_inserted env); cbn; auto].
  cbn [on_slide with_prs self].
  destruct (mem key_eqb (length (prs st) + 1, strip notes_text)
              (notes_seen (self st))) eqn:Hseen;
    [left; destruct (watermark_inserted env); cbn; auto|].
  destruct (truthy (strip notes_text)) eqn:Htext;
    [|left; destruct (watermark_inserted env); cbn; auto].
  right. cbn [negb andb].
  exists (mkGenerator
            (speaker_notes_txt (self st)
               ++ [(length (prs st) + 1, strip notes_text)])
            ((length (prs st) + 1, strip notes_text) :: notes_seen (self st))
            (slide_count (self st))).
  split.
  - exists notes_text. cbn. repeat split; auto. now apply mem_key_not_In.
  - destruct (watermark_inserted env); cbn; auto.
Qed.

Lemma title_slide_notes_once (env : Env) (heading_text subheading_text notes_text : str)
  (st : Pass) :
  notes_once (self st) ->
  notes_once (self (add_custom_title_slide env heading_text subheading_text
                      notes_text st)).
Proof.
  intros Hinv.
  destruct (title_slide_notes env heading_text subheading_text notes_text st)
    as [(Hn & Hs & _)|(g1 & Hadd & Hn & Hs & _)].
  - unfold notes_once in *. now rewrite Hn, Hs.
  - apply (notes_once_added _ _ _ Hadd) in Hinv.
    unfold notes_once in *. now rewrite Hn, Hs.
Qed.

(** The generator a conversion ends with is that of the pass, with at most
    a fallback slide counted. *)
Lemma conversion_generator (config : Config) (env : Env) (g : Generator)
  (content_div : Element) :
  exists (elements : list Element) (heading_text subheading_text notes_text : str),
    let st0 := add_custom_title_slide env heading_text subheading_text
                 notes_text (mkPass g [] None [] []) in
    let st1 := state_of (for_each config env elements
                           (mkPass (self st0) (prs st0) None [] [])) in
    notes_kept (self st1)
      (generator (create_enhanced_presentation config env g content_div)).
Proof.
  unfold create_enhanced_presentation, _process_content_elements.
  set (s := title_scan _ _).
  set (st0 := add_custom_title_slide env _ _ _ _).
  cbn [parents node].
  set (elements := find_all interesting _ _).
  exists elements, (or_else (heading s) (lit " ")),
    (or_else (subheading s) (lit " ")), (or_else (speaker_notes s) []).
  cbn zeta. fold st0.
  destruct (for_each config env elements (mkPass (self st0) (prs st0) None [] []))
    as [st1|e st1]; cbn [state_of generator]; [|apply notes_kept_refl].
  destruct (length (prs st1) =? 0)%nat;
    destruct (presentation_writable env); cbn;
    unfold notes_kept; cbn; auto.
Qed.

(** C7. Whatever the document, a generator whose notes list holds no key
    twice (the fresh one, or one that has converted before) still holds no
    key twice after the title slide, after any number of turns of the main
    pass, and at the end of the conversion: a note whose key, slide number
    and stripped text, was seen before is not recorded again. *)
Theorem notes_never_hold_a_key_twice
  (config : Config) (env : Env) (g : Generator) (content_div : Element) :
  notes_once g ->
  (forall heading_text subheading_text notes_text st,
      self st = g ->
      NoDup (speaker_notes_txt
               (self (add_custom_title_slide env heading_text subheading_text
                        notes_text st))))
  /\ (forall elements st,
        self st = g ->
        NoDup (speaker_notes_txt
                 (self (state_of (for_each config env elements st)))))
  /\ NoDup (speaker_notes_txt
              (generator (create_enhanced_presentation config env g
                            content_div))).
Proof.
  intros Hinv. split; [|split].
  - intros h s n st <-. now apply title_slide_notes_once.
  - intros elements st <-.
    apply (for_each_invariant config env notes_once); auto.
    intros element st'. apply iteration_notes_once.
  - destruct (conversion_generator config env g content_div)
      as (elements & h & s & n & Hkept).
    cbn zeta in Hkept.
    refine (proj1 (notes_once_kept _ _ Hkept _)).
    apply (for_each_invariant config env notes_once).
    + intros element st'. apply iteration_notes_once.
    + cbn [self]. now apply title_slide_notes_once.
Qed.

Lemma notes_never_hold_a_key_twice_witness :
  NoDup (speaker_notes_txt
           (generator (create_enhanced_presentation default_config
                         Examples.quiet Examples.used
                         (Examples.intro_canvas "h1")))).
Proof.
  apply (notes_never_hold_a_key_twice default_config Examples.quiet
           Examples.used (Examples.intro_canvas "h1")).
  split.
  - repeat constructor. cbn. intuition.
  - intros k Hk. exact Hk.
Defined.

(** *** The notes file *)

Lemma lstrip_nonspace (c : N) (r : str) :
  is_space c = false -> lstrip (c :: r) = c :: r.
Proof. intros H. cbn. now rewrite H. Qed.

Lemma lstrip_head (s : str) :
  lstrip s = [] \/ exists c r, lstrip s = c :: r /\ is_space c = false.
Proof.
  induction s as [|c r IH]; cbn; [auto|].
  destruct (is_space c) eqn:Hc; [exact IH|].
  right. eauto.
Qed.

Lemma lstrip_app_nonspace (l : str) (c : N) :
  is_space c = false -> lstrip (l ++ [c]) = lstrip l ++ [c].
Proof.
  intros Hc. induction l as [|a l IH]; cbn.
  - now rewrite Hc.
  - destruct (is_space a); [exact IH | reflexivity].
Qed.

Lemma lstrip_idem (s : str) : lstrip (lstrip s) = lstrip s.
Proof.
  destruct (lstrip_head s) as [->|(c & r & -> & Hc)];
    [reflexivity | now apply lstrip_nonspace].
Qed.

Lemma rstrip_nonspace (c : N) (r : str) :
  is_space c = false -> rstrip (c :: r) = c :: rstrip r.
Proof.
  intros Hc. unfold rstrip. cbn [rev].
  rewrite lstrip_app_nonspace by exact Hc.
  rewrite rev_app_distr. reflexivity.
Qed.

Lemma rstrip_idem (s : str) : rstrip (rstrip s) = rstrip s.
Proof.
  unfold rstrip. now rewrite rev_involutive, lstrip_idem.
Qed.

(** Stripping twice is stripping once. *)
Lemma strip_idem (s : str) : strip (strip s) = strip s.
Proof.
  unfold strip.
  destruct (lstrip_head s) as [->|(c & r & -> & Hc)]; [reflexivity|].
  rewrite (rstrip_nonspace c r Hc).
  rewrite (lstrip_nonspace c _ Hc).
  rewrite (rstrip_nonspace c _ Hc).
  now rewrite rstrip_idem.
Qed.

Lemma sorted_snoc (l : list nat) (x : nat) :
  StronglySorted le l -> Forall (fun y => y <= x) l ->
  StronglySorted le (l ++ [x]).
Proof.
  induction l as [|a l IH]; cbn; intros Hs Hall.
  - repeat constructor.
  - apply StronglySorted_inv in Hs as [Hs Ha].
    apply Forall_cons_iff in Hall as [Hax Hall].
    constructor; [auto|].
    apply Forall_app. split; [exact Ha | repeat constructor; exact Hax].
Qed.

Lemma notes_in_slide_order_kept (g g' : Generator) :
  notes_kept g g' -> notes_in_slide_order g -> notes_in_slide_order g'.
Proof.
  unfold notes_kept, notes_in_slide_order.
  intros (Hn & _ & Hc) (Hclean & Hsorted & Hbound). rewrite Hn.
  repeat split; auto.
  eapply Forall_impl; [|exact Hbound]. cbn. intros k Hk. lia.
Qed.

Lemma notes_in_slide_order_added (g g' : Generator) :
  note_added (slide_count g) g g' ->
  notes_in_slide_order g -> notes_in_slide_order g'.
Proof.
  unfold notes_in_slide_order, notes_clean.
  intros (text & Htext & _ & Hn & _ & Hc) (Hclean & Hsorted & Hbound).
  rewrite Hn, Hc. repeat split.
  - apply Forall_app. split; [exact Hclean|].
    repeat constructor; cbn; [apply strip_idem | exact Htext].
  - rewrite map_app. cbn. apply sorted_snoc; [exact Hsorted|].
    apply Forall_map. exact Hbound.
  - apply Forall_app. split; [exact Hbound|]. repeat constructor.
Qed.

Lemma iteration_notes_in_slide_order (config : Config) (env : Env)
  (element : Element) (st : Pass) :
  notes_in_slide_order (self st) ->
  notes_in_slide_order (self (state_of (iteration config env element st))).
Proof.
  intros Hinv.
  destruct (iteration_notes config env element st) as [H|H].
  - exact (notes_in_slide_order_kept _ _ H Hinv).
  - exact (notes_in_slide_order_added _ _ H Hinv).
Qed.

Lemma title_slide_notes_in_slide_order (env : Env)
  (heading_text subheading_text notes_text : str) :
  notes_in_slide_order
    (self (add_custom_title_slide env heading_text subheading_text notes_text
             (mkPass init [] None [] []))).
Proof.
  destruct (title_slide_notes env heading_text subheading_text notes_text
              (mkPass init [] None [] []))
    as [(Hn & _ & Hc)|(g1 & (text & Htext & _ & Hn1 & _ & Hc1) & Hn & _ & Hc)];
    unfold notes_in_slide_order, notes_clean; rewrite Hn, Hc.
  - cbn. repeat split; constructor.
  - rewrite Hn1, Hc1. cbn. repeat split.
    + repeat constructor; cbn; [apply strip_idem | exact Htext].
    + repeat constructor.
    + repeat constructor.
Qed.

(** Clean notes without repetition all pass the filter of the notes file. *)
Lemma cleaned_notes_id (l seen : list NoteKey) :
  notes_clean l -> NoDup l -> (forall k, In k l -> ~ In k seen) ->
  cleaned_notes seen l = l.
Proof.
  revert seen. induction l as [|[n t] l IH]; intros seen Hclean Hnodup Hnew;
    [reflexivity|].
  apply Forall_cons_iff in Hclean as [[Hstrip Htruthy] Hclean].
  apply NoDup_cons_iff in Hnodup as [Hnotin Hnodup].
  cbn [snd] in Hstrip, Htruthy. cbn [cleaned_notes].
  rewrite Hstrip, Htruthy.
  destruct (mem key_eqb (n, t) seen) eqn:Hmem.
  - apply mem_key_In in Hmem. exfalso. apply (Hnew (n, t)); [left|]; auto.
  - cbn. f_equal. apply IH; auto.
    intros k Hk [<-|Hseen]; [auto|]. apply (Hnew k); [right|]; auto.
Qed.

(** The filter of the notes file keeps no empty note. *)
Lemma cleaned_notes_not_empty (l seen : list NoteKey) :
  Forall (fun k => truthy (snd k) = true) (cleaned_notes seen l).
Proof.
  revert seen. induction l as [|[n t] l IH]; intros seen; cbn; [constructor|].
  destruct (truthy (strip t)) eqn:Htext; cbn; [|apply IH].
  destruct (mem key_eqb (n, strip t) seen); cbn; [apply IH|].
  constructor; [exact Htext | apply IH].
Qed.

(** C8, counterexample. A heading followed by two different notes: both are
    recorded for slide 2, and the notes file has two blocks for that
    slide. *)
Lemma two_notes_make_two_blocks_for_one_slide :
  let c := convert Examples.quiet Examples.two_notes_canvas in
  speaker_notes_txt (generator c) = [(2, lit "a"); (2, lit "b")]
  /\ notes_file c =
       Some (lit "Slide 2:" ++ newline ++ lit "a" ++ newline ++ newline
             ++ lit "Slide 2:" ++ newline ++ lit "b" ++ newline ++ newline)
  /\ ~ one_block_per_noted_slide (speaker_notes_txt (generator c)).
Proof.
  cbn zeta. split; [vm_compute; reflexivity|].
  split; [vm_compute; reflexivity|].
  intros H. vm_compute in H.
  apply NoDup_cons_iff in H as [H _]. apply H. left. reflexivity.
Qed.

(** C8, amended. After a conversion by a fresh generator, the notes file,
    when written, is one block per note of the accumulated list, in the
    order of the list, which is by slide number (a slide that was given
    several different notes has a block for each); each block is the text
    [Slide <N>:], a newline, the note, which is stripped and not empty, and
    two newlines. Whatever the list handed to the writer, a note left empty
    by stripping gets no block. *)
Theorem notes_file_has_a_block_per_note
  (config : Config) (env : Env) (content_div : Element) :
  let c := create_enhanced_presentation config env init content_div in
  let l := speaker_notes_txt (generator c) in
  notes_blocks l =
    map (fun k => lit "Slide " ++ of_nat (fst k) ++ lit ":" ++ newline
                    ++ snd k ++ newline ++ newline) l
  /\ (notes_file c = None
      \/ notes_file c = Some (concat (notes_blocks l)))
  /\ StronglySorted le (map fst l)
  /\ Forall (fun k => strip (snd k) = snd k /\ truthy (snd k) = true) l
  /\ forall any : list NoteKey,
       Forall (fun k => truthy (snd k) = true) (cleaned_notes [] any).
Proof.
  cbn zeta.
  assert (Hinv : notes_once
                   (generator (create_enhanced_presentation config env init
                                 content_div))
                 /\ notes_in_slide_order
                      (generator (create_enhanced_presentation config env init
                                    content_div))).
  { destruct (conversion_generator config env init content_div)
      as (elements & h & s & n & Hkept).
    cbn zeta in Hkept. split.
    - refine (notes_once_kept _ _ Hkept _).
      apply (for_each_invariant config env notes_once).
      + intros element st'. apply iteration_notes_once.
      + cbn [self]. apply title_slide_notes_once.
        split; [constructor | intros k []].
    - refine (notes_in_slide_order_kept _ _ Hkept _).
      apply (for_each_invariant config env notes_in_slide_order).
      + intros element st'. apply iteration_notes_in_slide_order.
      + cbn [self]. apply title_slide_notes_in_slide_order. }
  destruct Hinv as ((Hnodup & _) & Hclean & Hsorted & _).
  split; [|split; [|split; [|split]]].
  - unfold notes_blocks.
    rewrite cleaned_notes_id; auto.
    apply map_ext_in. intros k Hk. unfold notes_block.
    unfold notes_clean in Hclean. rewrite Forall_forall in Hclean.
    destruct (Hclean k Hk) as [-> _]. reflexivity.
  - unfold create_enhanced_presentation.
    destruct (_process_content_elements _ _ _ _) as [st|e st];
      [|left; reflexivity].
    destruct (presentation_writable env); [|left; reflexivity].
    cbn [generator notes_file].
    destruct (speaker_notes_txt (self _)); [left; reflexivity|].
    destruct (notes_file_writable env); [right|left]; reflexivity.
  - exact Hsorted.
  - exact Hclean.
  - intros any. apply cleaned_notes_not_empty.
Qed.

(** *** A heading, a paragraph with a note, a table *)

(** C2, counterexample. Whether the heading is an [h1] or an [h3], the
    conversion is not as C2 says: the note goes to slide 1. *)
Lemma intro_note_is_not_on_slide_2 :
  ~ intro_slide_with_note_2
      (convert Examples.quiet (Examples.intro_canvas "h1"))
  /\ ~ intro_slide_with_note_2
         (convert Examples.quiet (Examples.intro_canvas "h3")).
Proof.
  split; intros (t & s & _ & _ & _ & _ & Hnotes);
    vm_compute in Hnotes; discriminate.
Qed.

(** C2, amended. The document made of the heading "Intro", the paragraph
    "Hello Speaker Notes: remember the demo" and a 2x2 table converts to a
    title slide and one content slide holding a table of 2 rows by 2
    columns; the only note is "remember the demo" for slide 1, the title
    slide, the paragraph being taken by the title extraction (its text
    before the marker is dropped). A heading of level 1 or 2 is taken as the
    heading of the title slide and the content slide is titled "Content"; a
    heading of level 3 to 6 opens the content slide, titled "Intro", under a
    title slide with a one-space heading. *)
Theorem intro_canvas_conversion (env : Env) :
  Forall (fun h =>
    let c := convert env (Examples.intro_canvas h) in
    presentation c =
      [mkSlide 0 (lit "Intro") (set_text []) (watermark env)
         (Some (lit "remember the demo"));
       mkSlide 1 (lit "Content") [empty_paragraph]
         (watermark env ++ [grid_2x2]) None]
    /\ speaker_notes_txt (generator c) = [(1, lit "remember the demo")])
    ["h1"; "h2"]
  /\ Forall (fun h =>
    let c := convert env (Examples.intro_canvas h) in
    presentation c =
      [mkSlide 0 (lit " ") (set_text []) (watermark env)
         (Some (lit "remember the demo"));
       mkSlide 1 (lit "Intro") [empty_paragraph]
         (watermark env ++ [grid_2x2]) None]
    /\ speaker_notes_txt (generator c) = [(1, lit "remember the demo")])
    ["h3"; "h4"; "h5"; "h6"].
Proof.
  destruct env as [[] [] []];
    split; repeat constructor; vm_compute; reflexivity.
Qed.

(** *** Preformatted and code nodes *)

(** Handed a tag, [_add_code_content] writes no text: it leaves the slides
    as they are, or adds an empty paragraph before it fails. *)
Lemma code_content_of_tag_writes_no_text (config : Config)
  (box : ContentBox) (element : Element) (st : Pass) :
  let st' := state_of (_add_code_content config box (OfTag element) st) in
  st' = st \/ exists slide, st' = add_paragraph slide empty_paragraph st.
Proof.
  cbn zeta. unfold _add_code_content.
  destruct (find_all ["strip"] [] (node element)); [left; reflexivity|].
  destruct (descendants [] (node e)); [left; reflexivity|].
  destruct box; [left; reflexivity | right; eexists; reflexivity].
Qed.

(** C3, on the code. A heading followed by a preformatted block [x = 1]:
    the slide of the heading is the open one, and the block adds nothing to
    it; its body is the empty paragraph it was created with. (The dispatch
    hands the element, not its text, to [_add_code_content], which fails on
    it; the failure is caught by the handler of the loop.) *)
Theorem pre_node_gets_no_code_block (env : Env) :
  presentation (convert env Examples.pre_canvas) =
    [bare_title_slide env;
     mkSlide 1 (lit "T") [empty_paragraph] (watermark env) None].
Proof.
  destruct env as [[] [] []]; vm_compute; reflexivity.
Qed.

(** *** Code lines *)

Lemma for_each_app (config : Config) (env : Env) (xs ys : list Element)
  (st : Pass) :
  for_each config env (xs ++ ys) st =
    bind (for_each config env xs st) (for_each config env ys).
Proof.
  revert st. induction xs as [|x xs IH]; intros st; [reflexivity|].
  cbn [app for_each].
  destruct (iteration config env x st) as [st1|e st1]; cbn [bind]; auto.
Qed.

(** A code line that is visited goes to the buffer, and nowhere else. *)
Lemma iteration_code_line (config : Config) (env : Env) (element : Element)
  (st : Pass) :
  mem Nat.eqb (el_id element) (processed_elements st) = false ->
  split_notes (get_text (node element)) = None ->
  is_cm_line element = true ->
  truthy (get_text (node element)) = true ->
  iteration config env element st =
    Ok (mark_processed (el_id element)
          (with_code_buffer (code_buffer st ++ [get_text (node element)]) st)).
Proof.
  intros Hfresh Hnote Hcm Htext. unfold iteration.
  now rewrite Hfresh, Hnote, Hcm, Htext.
Qed.

(** When the last node of the pass is a code line, the pass returns with
    the line still in the buffer and the slides as they were before it: the
    flush written after the dispatch is part of the loop body, and nothing
    follows the loop. *)
Lemma trailing_code_line_stays_in_buffer (config : Config) (env : Env)
  (elements : list Element) (last : Element) (st st1 : Pass) :
  for_each config env elements st = Ok st1 ->
  mem Nat.eqb (el_id last) (processed_elements st1) = false ->
  split_notes (get_text (node last)) = None ->
  is_cm_line last = true ->
  truthy (get_text (node last)) = true ->
  exists st2,
    for_each config env (elements ++ [last]) st = Ok st2
    /\ prs st2 = prs st1
    /\ code_buffer st2 = code_buffer st1 ++ [get_text (node last)].
Proof.
  intros Hrun Hfresh Hnote Hcm Htext.
  rewrite for_each_app, Hrun. cbn [bind for_each].
  rewrite (iteration_code_line config env last st1) by assumption.
  cbn [bind]. eexists. split; [reflexivity|]. split; reflexivity.
Qed.

(** C4, on the code. A heading followed by one code line [x], the last node
    of the document: the deck has the slide of the heading with an empty
    body, and the pass, run on the same document, returns with [x] still in
    its buffer. *)
Theorem trailing_code_is_not_flushed (env : Env) :
  presentation (convert env Examples.trailing_code_canvas) =
    [bare_title_slide env;
     mkSlide 1 (lit "T") [empty_paragraph] (watermark env) None]
  /\ exists st,
       _process_content_elements default_config env
         Examples.trailing_code_canvas Examples.idle = Ok st
       /\ code_buffer st = [lit "x"]
       /\ map body (prs st) = [[empty_paragraph]].
Proof.
  split.
  - destruct env as [[] [] []]; vm_compute; reflexivity.
  - destruct env as [[] [] []]; eexists;
      (split; [vm_compute; reflexivity|]); split; reflexivity.
Qed.

(** With a slide open, the flush adds the buffered lines as one paragraph,
    joined by newlines and set as code, and empties the buffer. *)
Lemma flush_on_open_slide (config : Config) (env : Env) (slide : nat)
  (st : Pass) :
  current_slide st = Some slide ->
  truthy (strip (join newline (code_buffer st))) = true ->
  flush_code_buffer config env true st =
    Ok (with_code_buffer []
          (add_paragraph slide (code_block config (join newline (code_buffer st)))
             (with_current_slide (Some slide) st))).
Proof.
  intros Hopen Htext. unfold flush_code_buffer.
  destruct (code_buffer st) as [|line rest] eqn:Hbuf; [discriminate|].
  unfold ensure_current, _ensure_slide. rewrite Hopen.
  cbn [_add_code_content with_current_slide code_buffer].
  rewrite Hbuf, Htext. reflexivity.
Qed.

(** Under a heading, three code lines and a block quote: one code
    paragraph with the three lines on the slide of the heading. *)
Lemma headed_code_run_is_one_block (env : Env) :
  presentation (convert env Examples.headed_code_run_canvas) =
    [bare_title_slide env;
     mkSlide 1 (lit "T")
       [empty_paragraph;
        mkParagraph (lit "a" ++ newline ++ lit "b" ++ newline ++ lit "c")
          0 true CourierNew20]
       (watermark env) None].
Proof.
  destruct env as [[] [] []]; vm_compute; reflexivity.
Qed.

(** C6, on the code. Three code lines [a], [b], [c] followed by a block
    quote, with no slide open before them: the flush opens a slide titled
    "Content" and fails on it, its content box being a text frame; the
    exception leaves the pass, the conversion returns [False], nothing is
    written, and the slide bears no code. The pass run on the three code
    lines followed by a paragraph ends the same way, the lines still in the
    buffer. *)
Theorem code_run_without_slide_fails (env : Env) :
  let c := convert env Examples.code_run_canvas in
  returned c = false
  /\ pptx_file c = None
  /\ presentation c =
       [bare_title_slide env;
        mkSlide 1 (lit "Content") [empty_paragraph] (watermark env) None]
  /\ exists st,
       _process_content_elements default_config env
         Examples.code_run_then_paragraph Examples.idle
         = Raise AttributeError st
       /\ prs st =
            [mkSlide 1 (lit "Content") [empty_paragraph] (watermark env) None]
       /\ code_buffer st = [lit "a"; lit "b"; lit "c"].
Proof.
  destruct env as [[] [] []]; vm_compute; repeat split;
    eexists; repeat split; reflexivity.
Qed.

(** *** The filename sanitizer *)

Lemma firstn_Forall {A : Type} (P : A -> Prop) (n : nat) (l : list A) :
  Forall P l -> Forall P (firstn n l).
Proof.
  intros H. revert n. induction H as [|x l Hx Hl IH]; intros [|n]; cbn;
    constructor; auto.
Qed.

(** Whatever the normalizer, the name returned for the default maximum
    length is not empty, has at most 95 characters, all of them ASCII. *)
Lemma sanitize_ascii_bounded (normalize_NFKD : str -> str) (filename : str) :
  let name := SafeFilename.sanitize normalize_NFKD filename 100 in
  name <> []
  /\ length name <= 95
  /\ Forall (fun c => (c < 128)%N) name.
Proof.
  cbn zeta. unfold SafeFilename.sanitize.
  set (kept := filter SafeFilename.is_ascii _).
  assert (Hascii : Forall (fun c => (c < 128)%N) kept).
  { apply Forall_forall. intros c Hc. apply filter_In in Hc as [_ Hc].
    now apply N.ltb_lt. }
  set (cut := if (Z.of_nat (length kept) >? 100 - 5)%Z then _ else _).
  assert (Hcut : length cut <= 95 /\ Forall (fun c => (c < 128)%N) cut).
  { unfold cut. destruct (Z.of_nat (length kept) >? 100 - 5)%Z eqn:Hlen.
    - split.
      + change (slice_to (100 - 5) kept) with (firstn 95 kept).
        rewrite length_firstn. lia.
      + change (slice_to (100 - 5) kept) with (firstn 95 kept).
        now apply firstn_Forall.
    - split; [|exact Hascii].
      rewrite Z.gtb_ltb in Hlen. apply Z.ltb_ge in Hlen. lia. }
  destruct cut as [|c r]; cbn [truthy].
  - split; [discriminate|]. split; [vm_compute; lia|].
    vm_compute. repeat constructor.
  - destruct Hcut. split; [discriminate | auto].
Qed.

(** C9, on the code. With the Unicode database's decompositions of U+00A8
    (diaeresis: a space and a combining mark) and of U+FF1C (fullwidth
    less-than sign: the ASCII one), the sanitizer turns the one-character
    names made of them into a space and into a less-than sign: the
    normalization comes after the two substitutions and brings back what
    they removed. *)
Theorem sanitize_brings_back_space_and_less_than
  (normalize_NFKD : str -> str) :
  normalize_NFKD [0xA8%N] = [0x20%N; 0x308%N] ->
  normalize_NFKD [0xFF1C%N] = [0x3C%N] ->
  SafeFilename.sanitize normalize_NFKD [0xA8%N] 100 = lit " "
  /\ SafeFilename.sanitize normalize_NFKD [0xFF1C%N] 100 = lit "<"
  /\ is_space 0x20 = true
  /\ SafeFilename.is_dangerous 0x3C = true.
Proof.
  intros Hdiaeresis Hless. unfold SafeFilename.sanitize.
  change (SafeFilename.sub_space_runs false
            (SafeFilename.sub_dangerous [0xA8%N])) with [0xA8%N].
  change (SafeFilename.sub_space_runs false
            (SafeFilename.sub_dangerous [0xFF1C%N])) with [0xFF1C%N].
  rewrite Hdiaeresis, Hless. repeat split; reflexivity.
Qed.

Lemma sanitize_brings_back_space_and_less_than_witness :
  SafeFilename.sanitize SafeFilename.nfkd_excerpt [0xA8%N] 100 = lit " "
  /\ SafeFilename.sanitize SafeFilename.nfkd_excerpt [0xFF1C%N] 100 = lit "<"
  /\ is_space 0x20 = true
  /\ SafeFilename.is_dangerous 0x3C = true.
Proof.
  apply (sanitize_brings_back_space_and_less_than SafeFilename.nfkd_excerpt);
    reflexivity.
Defined.

(* ================================================================== *)
(** ** Further properties of the code *)
(* ================================================================== *)

(** *** Decimal numerals *)

Lemma lit_inj (a b : string) : lit a = lit b -> a = b.
Proof.
  unfold lit. intros H.
  rewrite <- (string_of_list_ascii_of_string a),
          <- (string_of_list_ascii_of_string b).
  f_equal.
  revert H. generalize (list_ascii_of_string a) (list_ascii_of_string b).
  induction l as [|x l IH]; intros [|y l']; cbn; try discriminate; auto.
  intros [= Hxy Hl]. f_equal; [|auto].
  rewrite <- (ascii_N_embedding x), <- (ascii_N_embedding y). now f_equal.
Qed.

Lemma to_uint_not_nil (n : nat) : Nat.to_uint n <> Decimal.Nil.
Proof.
  pose proof (DecimalNat.Unsigned.to_of (Nat.to_uint n)) as H.
  rewrite DecimalNat.Unsigned.of_to in H. rewrite H.
  unfold Decimal.unorm. destruct (Decimal.nzhead (Nat.to_uint n)); discriminate.
Qed.

(** [str(n)] tells the numbers apart. *)
Lemma of_nat_inj (n m : nat) : of_nat n = of_nat m -> n = m.
Proof.
  unfold of_nat. intros H. apply lit_inj in H.
  apply DecimalNat.Unsigned.to_uint_inj.
  apply (f_equal NilZero.uint_of_string) in H.
  rewrite !NilZero.usu in H by apply to_uint_not_nil.
  congruence.
Qed.

Lemma string_of_uint_digits (d : Decimal.uint) :
  Forall ascii_digit (lit (NilEmpty.string_of_uint d)).
Proof.
  induction d; cbn; constructor; auto; unfold ascii_digit; cbn; lia.
Qed.

(** [str(n)] is a non-empty run of ASCII digits. *)
Lemma of_nat_digits (n : nat) :
  of_nat n <> [] /\ Forall ascii_digit (of_nat n).
Proof.
  unfold of_nat. destruct (Nat.to_uint n) eqn:E;
    try (split; [cbn; discriminate | apply (string_of_uint_digits)]).
  now apply to_uint_not_nil in E.
Qed.

Lemma ascii_digit_is_digit (c : N) : ascii_digit c -> is_digit c = true.
Proof.
  unfold ascii_digit, is_digit, decimal_runs. intros [Hlo Hhi].
  cbn [existsb]. apply orb_true_iff. left.
  apply andb_true_iff. split; [apply N.leb_le | apply N.ltb_lt]; lia.
Qed.

Lemma ascii_digit_not_space (c : N) : ascii_digit c -> is_space c = false.
Proof.
  unfold ascii_digit, is_space. intros [Hlo Hhi].
  repeat match goal with
  | |- context [(?a <=? ?b)%N] => destruct (N.leb_spec a b)
  | |- context [(?a =? ?b)%N] => destruct (N.eqb_spec a b)
  end; cbn; try reflexivity; lia.
Qed.

(** *** The sanitizer, once more *)

Lemma slice_to_prefix (k : Z) (s : str) : exists m, slice_to k s = firstn m s.
Proof. unfold slice_to. destruct (0 <=? k)%Z; eauto. Qed.

Lemma sub_space_runs_Forall (P : N -> Prop) (in_run : bool) (s : str) :
  P SafeFilename.underscore -> Forall P s ->
  Forall P (SafeFilename.sub_space_runs in_run s).
Proof.
  intros Hu Hs. revert in_run.
  induction Hs as [|c r Hc Hr IH]; intros in_run;
    cbn [SafeFilename.sub_space_runs]; [constructor|].
  destruct (is_space c); [destruct in_run|]; auto.
Qed.

Lemma sub_space_runs_no_space (in_run : bool) (s : str) :
  Forall (fun c => is_space c = false)
    (SafeFilename.sub_space_runs in_run s).
Proof.
  revert in_run.
  induction s as [|c r IH]; intros in_run; cbn [SafeFilename.sub_space_runs];
    [constructor|].
  destruct (is_space c) eqn:Hc; [destruct in_run|]; auto.
Qed.

Lemma sub_dangerous_clean (s : str) :
  Forall (fun c => SafeFilename.is_dangerous c = false)
    (SafeFilename.sub_dangerous s).
Proof.
  unfold SafeFilename.sub_dangerous. apply Forall_map, Forall_forall.
  intros c _. destruct (SafeFilename.is_dangerous c) eqn:Hc; auto.
Qed.

Lemma sub_dangerous_id (s : str) :
  Forall (fun c => SafeFilename.is_dangerous c = false) s ->
  SafeFilename.sub_dangerous s = s.
Proof.
  unfold SafeFilename.sub_dangerous.
  induction 1 as [|c r Hc Hr IH]; cbn [map]; [reflexivity|].
  rewrite Hc. f_equal. exact IH.
Qed.

Lemma sub_space_runs_id (s : str) :
  Forall (fun c => is_space c = false) s ->
  SafeFilename.sub_space_runs false s = s.
Proof.
  induction 1 as [|c r Hc Hr IH]; cbn [SafeFilename.sub_space_runs];
    [reflexivity|].
  rewrite Hc. f_equal. exact IH.
Qed.

Lemma filter_id {A : Type} (f : A -> bool) (l : list A) :
  Forall (fun x => f x = true) l -> filter f l = l.
Proof.
  induction 1 as [|x r Hx Hr IH]; cbn; [reflexivity|].
  rewrite Hx. f_equal. exact IH.
Qed.

(** What the sanitizer returns: the fallback name, or a non-empty prefix of
    the ASCII characters of the normalized name, short enough when the
    maximum length leaves room for the extension. *)
Lemma sanitize_cases (normalize_NFKD : str -> str) (filename : str)
  (max_length : Z) :
  let name := SafeFilename.sanitize normalize_NFKD filename max_length in
  name = SafeFilename.fallback_name
  \/ (name <> []
      /\ (exists m,
            name = firstn m
                     (filter SafeFilename.is_ascii
                        (normalize_NFKD
                           (SafeFilename.sub_space_runs false
                              (SafeFilename.sub_dangerous filename)))))
      /\ ((5 <= max_length)%Z ->
          (Z.of_nat (length name) <= max_length - 5)%Z)).
Proof.
  cbn zeta. unfold SafeFilename.sanitize.
  set (kept := filter SafeFilename.is_ascii _).
  set (cut := if (Z.of_nat (length kept) >? max_length - 5)%Z then _ else _).
  assert (Hcut : (exists m, cut = firstn m kept)
                 /\ ((5 <= max_length)%Z ->
                     (Z.of_nat (length cut) <= max_length - 5)%Z)).
  { unfold cut.
    destruct (Z.of_nat (length kept) >? max_length - 5)%Z eqn:Hlen.
    - split; [apply slice_to_prefix|]. intros Hmax. unfold slice_to.
      destruct (Z.leb_spec 0 (max_length - 5)) as [_|Hneg]; [|lia].
      rewrite length_firstn; lia.
    - split; [exists (length kept); now rewrite firstn_all|]. intros _.
      rewrite Z.gtb_ltb in Hlen. apply Z.ltb_ge in Hlen. exact Hlen. }
  destruct cut as [|c r]; cbn [truthy]; [now left | right].
  destruct Hcut. split; [discriminate | auto].
Qed.

Lemma fallback_name_plain :
  Forall (fun c => (c < 128)%N /\ SafeFilename.is_dangerous c = false
                   /\ is_space c = false) SafeFilename.fallback_name.
Proof. vm_compute. repeat constructor. Qed.

(** X1. Whatever the normalizer and the name, for a maximum length of at
    least 5 the sanitizer returns a non-empty ASCII string that is the
    fallback name or has at most [max_length - 5] characters. *)
Theorem sanitize_bounds (normalize_NFKD : str -> str) (filename : str)
  (max_length : Z) :
  (5 <= max_length)%Z ->
  let name := SafeFilename.sanitize normalize_NFKD filename max_length in
  name <> []
  /\ Forall (fun c => (c < 128)%N) name
  /\ (name = SafeFilename.fallback_name
      \/ (Z.of_nat (length name) <= max_length - 5)%Z).
Proof.
  intros Hmax. cbn zeta.
  destruct (sanitize_cases normalize_NFKD filename max_length)
    as [->|(Hne & [m Hm] & Hlen)].
  - split; [discriminate|]. split; [|now left].
    eapply Forall_impl; [|exact fallback_name_plain]. now intros c [Hc _].
  - split; [exact Hne|]. split; [|right; auto].
    rewrite Hm. apply firstn_Forall, Forall_forall.
    intros c Hc. apply filter_In in Hc as [_ Hc]. now apply N.ltb_lt.
Qed.

Lemma sanitize_bounds_witness :
  let name := SafeFilename.sanitize SafeFilename.nfkd_excerpt
                (lit "my deck: v2?.pptx") 12 in
  name <> []
  /\ Forall (fun c => (c < 128)%N) name
  /\ (name = SafeFilename.fallback_name
      \/ (Z.of_nat (length name) <= 12 - 5)%Z).
Proof.
  apply (sanitize_bounds SafeFilename.nfkd_excerpt
           (lit "my deck: v2?.pptx") 12).
  lia.
Defined.

(** X2. When the normalization leaves the name as the two substitutions
    made it, as it does for an ASCII name, the name returned holds none of
    the dangerous characters and no whitespace. *)
Theorem sanitize_clean_when_normalization_idle
  (normalize_NFKD : str -> str) (filename : str) (max_length : Z) :
  (let replaced :=
     SafeFilename.sub_space_runs false (SafeFilename.sub_dangerous filename) in
   normalize_NFKD replaced = replaced) ->
  Forall (fun c => SafeFilename.is_dangerous c = false /\ is_space c = false)
    (SafeFilename.sanitize normalize_NFKD filename max_length).
Proof.
  cbn zeta. intros Hidle.
  destruct (sanitize_cases normalize_NFKD filename max_length)
    as [->|(_ & [m Hm] & _)].
  - eapply Forall_impl; [|exact fallback_name_plain]. now intros c [_ Hc].
  - rewrite Hm, Hidle. apply firstn_Forall, Forall_forall.
    intros c Hc. apply filter_In in Hc as [Hc _]. revert c Hc.
    apply Forall_forall, Forall_and.
    + apply sub_space_runs_Forall; [reflexivity | apply sub_dangerous_clean].
    + apply sub_space_runs_no_space.
Qed.

Lemma sanitize_clean_when_normalization_idle_witness :
  Forall (fun c => SafeFilename.is_dangerous c = false /\ is_space c = false)
    (SafeFilename.sanitize SafeFilename.nfkd_excerpt
       (lit "my deck: v2?.pptx") 100).
Proof.
  apply (sanitize_clean_when_normalization_idle SafeFilename.nfkd_excerpt
           (lit "my deck: v2?.pptx") 100).
  reflexivity.
Defined.

(** A clean ASCII name that fits is returned as it is. *)
Lemma sanitize_fixes_clean_names (normalize_NFKD : str -> str) (s : str)
  (max_length : Z) :
  normalize_NFKD s = s ->
  s <> [] ->
  Forall (fun c => SafeFilename.is_dangerous c = false) s ->
  Forall (fun c => is_space c = false) s ->
  Forall (fun c => SafeFilename.is_ascii c = true) s ->
  (Z.of_nat (length s) <= max_length - 5)%Z ->
  SafeFilename.sanitize normalize_NFKD s max_length = s.
Proof.
  intros Hn Hne Hd Hs Ha Hlen. unfold SafeFilename.sanitize.
  rewrite (sub_dangerous_id s Hd), (sub_space_runs_id s Hs), Hn,
    (filter_id _ s Ha).
  destruct (Z.gtb_spec (Z.of_nat (length s)) (max_length - 5)); [lia|].
  destruct s; [congruence | reflexivity].
Qed.

(** X3. With a normalizer that leaves ASCII strings alone, as NFKD does,
    and a maximum length of at least 18 (the fallback name and five more
    characters), sanitizing an ASCII name twice is sanitizing it once. *)
Theorem sanitize_idempotent_on_ascii (normalize_NFKD : str -> str)
  (filename : str) (max_length : Z) :
  (forall s, Forall (fun c => SafeFilename.is_ascii c = true) s ->
             normalize_NFKD s = s) ->
  Forall (fun c => SafeFilename.is_ascii c = true) filename ->
  (18 <= max_length)%Z ->
  SafeFilename.sanitize normalize_NFKD
    (SafeFilename.sanitize normalize_NFKD filename max_length) max_length
  = SafeFilename.sanitize normalize_NFKD filename max_length.
Proof.
  intros Hnfkd Hfile Hmax.
  set (replaced :=
         SafeFilename.sub_space_runs false (SafeFilename.sub_dangerous filename)).
  assert (Hascii : Forall (fun c => SafeFilename.is_ascii c = true) replaced).
  { apply sub_space_runs_Forall; [reflexivity|].
    unfold SafeFilename.sub_dangerous. apply Forall_map.
    eapply Forall_impl; [|exact Hfile]. intros c Hc. cbn beta.
    destruct (SafeFilename.is_dangerous c); [reflexivity | exact Hc]. }
  assert (Hclean : Forall (fun c => SafeFilename.is_dangerous c = false
                                    /\ is_space c = false) replaced).
  { apply Forall_and.
    - apply sub_space_runs_Forall; [reflexivity | apply sub_dangerous_clean].
    - apply sub_space_runs_no_space. }
  destruct (sanitize_cases normalize_NFKD filename max_length)
    as [->|(Hne & [m Hm] & Hlen)].
  - apply sanitize_fixes_clean_names.
    + apply Hnfkd. vm_compute. repeat constructor.
    + discriminate.
    + eapply Forall_impl; [|exact fallback_name_plain]. now intros c (_ & Hc & _).
    + eapply Forall_impl; [|exact fallback_name_plain]. now intros c (_ & _ & Hc).
    + vm_compute. repeat constructor.
    + change (Z.of_nat (length SafeFilename.fallback_name)) with 13%Z. lia.
  - fold replaced in Hm. rewrite (Hnfkd _ Hascii), (filter_id _ _ Hascii) in Hm.
    apply Forall_and_inv in Hclean as [Hd Hs].
    apply sanitize_fixes_clean_names; [| exact Hne | | | | apply Hlen; lia];
      try apply Hnfkd; rewrite Hm; now apply firstn_Forall.
Qed.

Lemma sanitize_idempotent_on_ascii_witness :
  SafeFilename.sanitize (fun s => s)
    (SafeFilename.sanitize (fun s => s) (lit "my deck: v2?.pptx") 100) 100
  = SafeFilename.sanitize (fun s => s) (lit "my deck: v2?.pptx") 100.
Proof.
  apply (sanitize_idempotent_on_ascii (fun s => s)
           (lit "my deck: v2?.pptx") 100).
  - reflexivity.
  - vm_compute. repeat constructor.
  - lia.
Defined.

(** *** Unique file names *)

Lemma path_eqb_eq (a b : SafeFilename.Path) :
  SafeFilename.path_eqb a b = true <-> a = b.
Proof.
  destruct a as [pa na], b as [pb nb]. unfold SafeFilename.path_eqb. cbn.
  rewrite andb_true_iff, !str_eqb_eq.
  split; [intros [-> ->]; reflexivity | intros [= -> ->]; auto].
Qed.

Lemma path_exists_In (fs : list SafeFilename.Path) (p : SafeFilename.Path) :
  SafeFilename.path_exists fs p = true <-> In p fs.
Proof.
  unfold SafeFilename.path_exists, mem. rewrite existsb_exists. split.
  - intros (x & Hx & Heq). apply path_eqb_eq in Heq. now subst.
  - intros Hin. exists p. split; [exact Hin | now apply path_eqb_eq].
Qed.

(** Different counters give different names. *)
Lemma numbered_inj (p : SafeFilename.Path) (j k : nat) :
  SafeFilename.numbered p j = SafeFilename.numbered p k -> j = k.
Proof.
  unfold SafeFilename.numbered. intros [= H].
  apply app_inv_head in H. cbn [app] in H. injection H as H.
  apply app_inv_tail in H. now apply of_nat_inj.
Qed.

Lemma first_free_some (fs : list SafeFilename.Path) (p q : SafeFilename.Path)
  (fuel c : nat) :
  SafeFilename.first_free fs p fuel c = Some q ->
  exists k, c <= k < c + fuel
    /\ q = SafeFilename.numbered p k
    /\ SafeFilename.path_exists fs q = false
    /\ forall j, c <= j < k ->
         SafeFilename.path_exists fs (SafeFilename.numbered p j) = true.
Proof.
  revert c. induction fuel as [|fuel IH]; intros c; cbn; [discriminate|].
  destruct (SafeFilename.path_exists fs (SafeFilename.numbered p c)) eqn:Hc;
    cbn.
  - intros H. apply IH in H as (k & Hk & Hq & Hfree & Hbusy).
    exists k. split; [lia|]. split; [exact Hq|]. split; [exact Hfree|].
    intros j Hj. destruct (Nat.eq_dec j c) as [->|Hne]; [exact Hc|].
    apply Hbusy. lia.
  - intros [= <-]. exists c. split; [lia|]. split; [reflexivity|].
    split; [exact Hc|]. intros j Hj. lia.
Qed.

Lemma first_free_none (fs : list SafeFilename.Path) (p : SafeFilename.Path)
  (fuel c : nat) :
  SafeFilename.first_free fs p fuel c = None ->
  incl (map (SafeFilename.numbered p) (seq c fuel)) fs.
Proof.
  revert c. induction fuel as [|fuel IH]; intros c; cbn; [intros _ x []|].
  destruct (SafeFilename.path_exists fs (SafeFilename.numbered p c)) eqn:Hc;
    cbn; [|discriminate].
  intros H x [<-|Hx]; [now apply path_exists_In | now apply (IH (S c))].
Qed.

Lemma NoDup_map_injective {A B : Type} (f : A -> B) (l : list A) :
  (forall x y, f x = f y -> x = y) -> NoDup l -> NoDup (map f l).
Proof.
  intros Hinj. induction 1 as [|x l Hx Hl IH]; cbn; constructor; auto.
  intros Hin. apply in_map_iff in Hin as (y & Hy & Hin).
  apply Hinj in Hy. now subst.
Qed.

(** As many turns as there are paths, and one more, always find a free
    name. *)
Lemma first_free_enough (fs : list SafeFilename.Path) (p : SafeFilename.Path)
  (c : nat) :
  SafeFilename.first_free fs p (S (length fs)) c <> None.
Proof.
  intros H. apply first_free_none in H.
  apply NoDup_incl_length in H.
  - rewrite length_map, length_seq in H. lia.
  - apply NoDup_map_injective; [|apply seq_NoDup].
    intros j k. apply numbered_inj.
Qed.

Lemma first_free_more_fuel (fs : list SafeFilename.Path)
  (p q : SafeFilename.Path) (fuel extra c : nat) :
  SafeFilename.first_free fs p fuel c = Some q ->
  SafeFilename.first_free fs p (fuel + extra) c = Some q.
Proof.
  revert c. induction fuel as [|fuel IH]; intros c; cbn; [discriminate|].
  destruct (negb (SafeFilename.path_exists fs (SafeFilename.numbered p c)));
    auto.
Qed.

(** X4. On a file system holding finitely many paths, [ensure_unique]
    ends, within as many turns as there are paths and one more, and returns
    a path that does not exist: the path given when it is free, and
    otherwise the name numbered with the least counter, from 1 on, that is
    free. More turns give the same path. *)
Theorem ensure_unique_returns_first_free_path
  (fs : list SafeFilename.Path) (filepath : SafeFilename.Path) :
  exists p,
    SafeFilename.ensure_unique fs (S (length fs)) filepath = Some p
    /\ SafeFilename.path_exists fs p = false
    /\ ((SafeFilename.path_exists fs filepath = false /\ p = filepath)
        \/ (SafeFilename.path_exists fs filepath = true
            /\ exists k, 1 <= k <= S (length fs)
                 /\ p = SafeFilename.numbered filepath k
                 /\ forall j, 1 <= j < k ->
                      SafeFilename.path_exists fs
                        (SafeFilename.numbered filepath j) = true))
    /\ forall extra,
         SafeFilename.ensure_unique fs (S (length fs) + extra) filepath
           = Some p.
Proof.
  unfold SafeFilename.ensure_unique.
  destruct (SafeFilename.path_exists fs filepath) eqn:Hthere; cbn [negb].
  - destruct (SafeFilename.first_free fs filepath (S (length fs)) 1)
      as [q|] eqn:Hq; [|now apply first_free_enough in Hq].
    exists q. split; [reflexivity|].
    destruct (first_free_some _ _ _ _ _ Hq) as (k & Hk & -> & Hfree & Hbusy).
    split; [exact Hfree|]. split.
    + right. split; [reflexivity|]. exists k. repeat split; auto; lia.
    + intros extra. now apply first_free_more_fuel.
  - exists filepath. repeat split; auto.
Qed.

(** *** The shape of the deck *)

Lemma update_length (i : nat) (f : Slide -> Slide) (l : list Slide) :
  length (update i f l) = length l.
Proof.
  revert i. induction l as [|s l IH]; intros [|i]; cbn; auto.
Qed.

Lemma update_map_same {B : Type} (g : Slide -> B) (i : nat)
  (f : Slide -> Slide) (l : list Slide) :
  (forall s, g (f s) = g s) -> map g (update i f l) = map g l.
Proof.
  intros Hf. revert i. induction l as [|s l IH]; intros [|i]; cbn;
    f_equal; auto.
Qed.

Lemma update_nth_error (i j : nat) (f : Slide -> Slide) (l : list Slide) :
  nth_error (update i f l) j =
    if Nat.eqb j i then option_map f (nth_error l j) else nth_error l j.
Proof.
  revert i j. induction l as [|s l IH]; intros i j.
  - destruct i, j; cbn; try reflexivity. now destruct (Nat.eqb j i).
  - destruct i, j; cbn; auto.
Qed.

Lemma update_last (f : Slide -> Slide) (l : list Slide) (s : Slide) :
  update (length l) f (l ++ [s]) = l ++ [f s].
Proof. induction l as [|x l IH]; cbn; [reflexivity | now rewrite IH]. Qed.

Lemma slides_added_refl (st : Pass) : slides_added 0 st st.
Proof.
  unfold slides_added. cbn. rewrite !app_nil_r, Nat.add_0_r. auto.
Qed.

Lemma slides_added_same (st st' : Pass) :
  prs st' = prs st -> self st' = self st -> slides_added 0 st st'.
Proof.
  unfold slides_added, layouts, slide_notes. intros -> ->.
  rewrite !app_nil_r, Nat.add_0_r. auto.
Qed.

Lemma slides_added_trans (j k : nat) (st1 st2 st3 : Pass) :
  slides_added j st1 st2 -> slides_added k st2 st3 ->
  slides_added (j + k) st1 st3.
Proof.
  unfold slides_added.
  intros (Hl & Hn & Hc & Ht & Hs) (Hl' & Hn' & Hc' & Ht' & Hs').
  rewrite Hl', Hl, Hn', Hn, Hc', Hc, Ht', Ht, Hs', Hs.
  rewrite !repeat_app, !app_assoc. repeat split; auto. lia.
Qed.

Lemma slides_added_length (k : nat) (st st' : Pass) :
  slides_added k st st' -> length (prs st') = length (prs st) + k.
Proof.
  intros (Hl & _). apply (f_equal (@length nat)) in Hl.
  unfold layouts in Hl.
  now rewrite length_app, !length_map, repeat_length in Hl.
Qed.

(** Writing on a slide without touching its layout or its notes. *)
Lemma on_slide_added (i : nat) (f : Slide -> Slide) (st : Pass) :
  (forall s, layout (f s) = layout s) ->
  (forall s, notes (f s) = notes s) ->
  slides_added 0 st (on_slide i f st).
Proof.
  intros Hl Hn. unfold slides_added, layouts, slide_notes, on_slide. cbn.
  rewrite !update_map_same by assumption.
  rewrite !app_nil_r, Nat.add_0_r. auto.
Qed.

Lemma add_content_slide_added (env : Env) (title_text : str) (st : Pass) :
  let '(st', slide, box) := _add_content_slide env title_text st in
  slides_added 1 st st'
  /\ slide = length (prs st)
  /\ current_slide st' = current_slide st
  /\ box = TextFrameOf slide.
Proof.
  unfold _add_content_slide, _add_watermark, slides_added, layouts,
    slide_notes, on_slide.
  destruct (watermark_inserted env); cbn;
    rewrite ?update_map_same by reflexivity;
    rewrite ?update_last, !map_app; cbn;
    repeat split; auto; lia.
Qed.

Lemma ensure_current_added (env : Env) (default_title : str) (st : Pass) :
  let st' := fst (ensure_current env default_title st) in
  (exists k, slides_added k st st')
  /\ (current_is_last st -> current_is_last st')
  /\ (forall i, current_slide st = Some i -> current_slide st' = Some i)
  /\ snd (ensure_current env default_title st) =
       match current_slide st with
       | Some i => PlaceholderOf i
       | None => TextFrameOf (length (prs st))
       end
  /\ current_slide st' <> None.
Proof.
  cbn zeta. unfold ensure_current, _ensure_slide.
  destruct (current_slide st) as [i|] eqn:Hcur.
  - cbn. split; [exists 0; now apply slides_added_same|].
    split; [intros H j [= <-]; now apply H|].
    split; [auto|]. split; [reflexivity | discriminate].
  - pose proof (add_content_slide_added env default_title st) as H.
    destruct (_add_content_slide env default_title st) as [[st1 slide] box].
    destruct H as (Hgrow & -> & Hcur1 & ->).
    cbn [fst snd]. split; [exists 1; exact Hgrow|].
    split.
    + intros _ j. cbn. intros [= <-].
      apply slides_added_length in Hgrow. lia.
    + split; [discriminate|]. split; [reflexivity | discriminate].
Qed.

Lemma add_code_content_added (config : Config) (box : ContentBox)
  (arg : CodeArg) (st : Pass) :
  let st' := state_of (_add_code_content config box arg st) in
  slides_added 0 st st' /\ current_slide st' = current_slide st.
Proof.
  cbn zeta. unfold _add_code_content, add_paragraph.
  destruct arg as [s|e].
  - destruct (negb (truthy (strip s)));
      [split; [apply slides_added_refl | reflexivity]|].
    destruct box; cbn [state_of];
      (split; [try apply slides_added_refl; now apply on_slide_added
              | reflexivity]).
  - destruct (find_all ["strip"] [] (node e));
      [split; [apply slides_added_refl | reflexivity]|].
    destruct (descendants [] (node e0));
      [split; [apply slides_added_refl | reflexivity]|].
    destruct box; cbn [state_of];
      (split; [try apply slides_added_refl; now apply on_slide_added
              | reflexivity]).
Qed.

Lemma add_list_content_added (box : ContentBox) (list_element : PageElement)
  (st : Pass) :
  let st' := state_of (_add_list_content box list_element st) in
  slides_added 0 st st' /\ current_slide st' = current_slide st.
Proof.
  cbn zeta. destruct box; cbn;
    (split; [try apply slides_added_refl; now apply on_slide_added
            | reflexivity]).
Qed.

Lemma add_table_to_slide_added (slide : nat) (table_element : PageElement)
  (st : Pass) :
  let st' := _add_table_to_slide slide table_element st in
  slides_added 0 st st' /\ current_slide st' = current_slide st.
Proof.
  cbn zeta. unfold _add_table_to_slide.
  destruct (table_shape table_element);
    (split; [try apply slides_added_refl; now apply on_slide_added
            | reflexivity]).
Qed.

Lemma deck_grows_refl (st : Pass) : deck_grows st st.
Proof. split; [exists 0; apply slides_added_refl | auto]. Qed.

Lemma deck_grows_trans (st1 st2 st3 : Pass) :
  deck_grows st1 st2 -> deck_grows st2 st3 -> deck_grows st1 st3.
Proof.
  intros [[j Hj] H12] [[k Hk] H23]. split; [|auto].
  exists (j + k). eapply slides_added_trans; eauto.
Qed.

(** A step that adds no slide and keeps the open slide. *)
Lemma deck_grows_still (st st' : Pass) :
  slides_added 0 st st' -> current_slide st' = current_slide st ->
  deck_grows st st'.
Proof.
  intros Hadd Hcur. split; [exists 0; exact Hadd|].
  intros Hlast i Hi. rewrite Hcur in Hi.
  apply slides_added_length in Hadd. rewrite Hadd, Nat.add_0_r. auto.
Qed.

Lemma deck_grows_same (st st' : Pass) :
  prs st' = prs st -> self st' = self st ->
  current_slide st' = current_slide st -> deck_grows st st'.
Proof.
  intros Hp Hs Hc. apply deck_grows_still; [|exact Hc].
  now apply slides_added_same.
Qed.

Lemma ensure_current_grows (env : Env) (default_title : str) (st : Pass) :
  deck_grows st (fst (ensure_current env default_title st)).
Proof.
  destruct (ensure_current_added env default_title st) as (H1 & H2 & _).
  split; assumption.
Qed.

Lemma flush_code_buffer_grows (config : Config) (env : Env) (clear : bool)
  (st : Pass) :
  deck_grows st (state_of (flush_code_buffer config env clear st)).
Proof.
  unfold flush_code_buffer.
  destruct (code_buffer st) as [|line rest]; [apply deck_grows_refl|].
  pose proof (ensure_current_grows env (lit "Content") st) as Hens.
  destruct (ensure_current env (lit "Content") st) as [st1 box].
  cbn [fst] in Hens.
  destruct (add_code_content_added config box
              (OfStr (join newline (code_buffer st1))) st1) as [Hadd Hcur].
  destruct (_add_code_content config box
              (OfStr (join newline (code_buffer st1))) st1) as [st2|e st2];
    cbn [bind state_of] in *.
  - apply (deck_grows_trans _ _ _ Hens).
    apply (deck_grows_trans _ st2); [now apply deck_grows_still|].
    destruct clear; [now apply deck_grows_same | apply deck_grows_refl].
  - apply (deck_grows_trans _ _ _ Hens). now apply deck_grows_still.
Qed.

Lemma dispatch_grows (config : Config) (env : Env) (element : Element)
  (st : Pass) :
  deck_grows st (fst (state_of (dispatch config env element st))).
Proof.
  unfold dispatch.
  destruct (name_in headings (el_name element)).
  { pose proof (add_content_slide_added env (get_text (node element)) st) as H.
    destruct (_add_content_slide env (get_text (node element)) st)
      as [[st1 slide] box].
    destruct H as (Hadd & -> & _). cbn [state_of fst].
    split; [exists 1; exact Hadd|].
    intros _ i. cbn. intros [= <-].
    apply slides_added_length in Hadd. lia. }
  destruct (name_in ["ol"; "ul"] (el_name element)
            && negb (has_parent ["ul"; "ol"] element)).
  { pose proof (ensure_current_grows env (lit "List") st) as H.
    destruct (ensure_current env (lit "List") st) as [st1 box].
    cbn [fst] in H.
    destruct (add_list_content_added box (node element) st1) as [Hadd Hcur].
    destruct (_add_list_content box (node element) st1) as [st2|e st2];
      cbn [state_of fst] in *;
      apply (deck_grows_trans _ _ _ H).
    - apply (deck_grows_trans _ st2); [now apply deck_grows_still|].
      now apply deck_grows_same.
    - now apply deck_grows_still. }
  destruct (String.eqb (el_name element) "table").
  { pose proof (ensure_current_grows env (lit "Content") st) as H.
    destruct (ensure_current env (lit "Content") st) as [st1 box].
    cbn [fst] in H. cbn [state_of fst].
    apply (deck_grows_trans _ _ _ H).
    destruct (current_slide st1) as [slide|];
      [|now apply deck_grows_same].
    destruct (add_table_to_slide_added slide (node element) st1)
      as [Hadd Hcur].
    apply (deck_grows_trans _ (_add_table_to_slide slide (node element) st1));
      [now apply deck_grows_still | now apply deck_grows_same]. }
  destruct (name_in ["pre"; "code"] (el_name element)).
  { pose proof (ensure_current_grows env (lit "Code") st) as H.
    destruct (ensure_current env (lit "Code") st) as [st1 box].
    cbn [fst] in H.
    destruct (add_code_content_added config box (OfTag element) st1)
      as [Hadd Hcur].
    destruct (_add_code_content config box (OfTag element) st1)
      as [st2|e st2]; cbn [state_of fst] in *;
      apply (deck_grows_trans _ _ _ H); now apply deck_grows_still. }
  cbn. now apply deck_grows_same.
Qed.

(** What one turn of the loop does to the deck: it grows, or, on a note met
    with a slide open, the notes of that slide are written and nothing else
    of the deck changes. *)
Lemma iteration_deck (config : Config) (env : Env) (element : Element)
  (st : Pass) :
  let st' := state_of (iteration config env element st) in
  deck_grows st st'
  \/ exists i F,
       current_slide st = Some i
       /\ current_slide st' = Some i
       /\ prs st' = update i F (prs st)
       /\ (forall s, layout (F s) = layout s)
       /\ slide_count (self st') = slide_count (self st)
       /\ ((speaker_notes_txt (self st') = speaker_notes_txt (self st)
            /\ forall s t, notes s = Some t -> notes (F s) = Some t)
           \/ exists x,
                speaker_notes_txt (self st') =
                  speaker_notes_txt (self st) ++ [(slide_count (self st), x)]
                /\ forall s, notes (F s) = Some x).
Proof.
  cbn zeta. unfold iteration.
  destruct (mem Nat.eqb (el_id element) (processed_elements st));
    [left; apply deck_grows_refl|].
  destruct (split_notes (get_text (node element)))
    as [[content_part notes_part]|].
  { destruct (current_slide st) as [slide|] eqn:Hcur;
      [|left; now apply deck_grows_same].
    right. cbn [on_slide with_prs self].
    destruct (truthy (strip notes_part)
              && negb (mem key_eqb (slide_count (self st), strip notes_part)
                         (notes_seen (self st)))).
    - exists slide, (fun s => set_notes (strip notes_part) (touch_notes s)).
      cbn. repeat split; auto.
      + clear. generalize (prs st) slide.
        induction l as [|s l IH]; intros [|i]; cbn; f_equal; auto.
      + right. exists (strip notes_part). auto.
    - exists slide, touch_notes. cbn. repeat split; auto.
      left. split; [reflexivity|]. intros s t Hs. cbn. now rewrite Hs. }
  left. destruct (is_cm_line element).
  { destruct (truthy (get_text (node element))); now apply deck_grows_same. }
  pose proof (flush_code_buffer_grows config env true st) as Hflush.
  destruct (flush_code_buffer config env true st) as [st1|e st1];
    cbn [bind state_of] in *; [|exact Hflush].
  repeat match goal with
  | |- context [if ?b then Ok (mark_processed _ _) else _] =>
      destruct b;
      [apply (deck_grows_trans _ _ _ Hflush); now apply deck_grows_same|]
  end.
  pose proof (dispatch_grows config env element st1) as Hd.
  destruct (dispatch config env element st1) as [[st2 continued]|e [st2 c]];
    cbn [state_of fst] in Hd.
  - destruct continued.
    + exact (deck_grows_trans _ _ _ Hflush Hd).
    + pose proof (flush_code_buffer_grows config env false st2) as Hf2.
      exact (deck_grows_trans _ _ _ Hflush (deck_grows_trans _ _ _ Hd Hf2)).
  - apply (deck_grows_trans _ _ _ Hflush).
    apply (deck_grows_trans _ _ _ Hd). now apply deck_grows_same.
Qed.

(** An invariant of the pass that every turn keeps is kept by the loop,
    whether it ends or is left by an exception. *)
Lemma for_each_pass_invariant (config : Config) (env : Env)
  (I : Pass -> Prop) :
  (forall element st, I st ->
     I (state_of (iteration config env element st))) ->
  forall elements st, I st -> I (state_of (for_each config env elements st)).
Proof.
  intros Hstep elements.
  induction elements as [|element rest IH]; intros st Hinv; [exact Hinv|].
  cbn [for_each]. specialize (Hstep element st Hinv).
  destruct (iteration config env element st) as [st1|e st1];
    cbn [bind state_of] in *; auto.
Qed.

Lemma title_then_content_grows (g : Generator) (st st' : Pass) :
  deck_grows st st' -> title_then_content g st -> title_then_content g st'.
Proof.
  intros [[k Hadd] _] [[m Hm] Hcount].
  pose proof (slides_added_length _ _ _ Hadd) as Hlen.
  destruct Hadd as (Hl & _ & Hc & _). split.
  - exists (m + k). rewrite Hl, Hm, repeat_app. reflexivity.
  - lia.
Qed.

Lemma title_then_content_nonempty (g : Generator) (st : Pass) :
  title_then_content g st -> (length (prs st) =? 0)%nat = false.
Proof.
  intros [[m Hm] _]. apply Nat.eqb_neq.
  apply (f_equal (@length nat)) in Hm.
  unfold layouts in Hm. rewrite length_map in Hm. cbn in Hm. lia.
Qed.

Lemma iteration_title_then_content (config : Config) (env : Env)
  (g : Generator) (element : Element) (st : Pass) :
  title_then_content g st ->
  title_then_content g (state_of (iteration config env element st)).
Proof.
  intros Hinv.
  destruct (iteration_deck config env element st)
    as [H|(i & F & _ & _ & Hprs & Hlay & Hcount & _)].
  - exact (title_then_content_grows _ _ _ H Hinv).
  - destruct Hinv as [[m Hm] Hc]. split.
    + exists m. unfold layouts in *. now rewrite Hprs, update_map_same.
    + now rewrite Hprs, update_length, Hcount.
Qed.

Lemma title_slide_title_then_content (env : Env) (g : Generator)
  (heading_text subheading_text notes_text : str) :
  let st := add_custom_title_slide env heading_text subheading_text
              notes_text (mkPass g [] None [] []) in
  title_then_content g st /\ length (prs st) = 1.
Proof.
  cbn zeta. unfold add_custom_title_slide, _add_watermark, title_then_content,
    layouts.
  destruct (truthy notes_text); cbn [on_slide with_prs self prs];
    [destruct (negb (mem key_eqb (length (@nil Slide) + 1, strip notes_text)
                       (notes_seen g)) && truthy (strip notes_text))|];
    destruct (watermark_inserted env); cbn;
    (split; [split; [exists 0; reflexivity | lia] | reflexivity]).
Qed.

(** X5. Whatever the document and the generator, the deck of a conversion
    is what the main pass leaves of the deck holding the title slide: one
    slide of the title layout followed by slides of the content layout
    only. The fallback slide is never added, and the generator has counted
    exactly the slides of the deck. *)
Theorem deck_is_title_slide_then_content_slides
  (config : Config) (env : Env) (g : Generator) (content_div : Element) :
  let c := create_enhanced_presentation config env g content_div in
  (exists m, map layout (presentation c) = 0 :: repeat 1 m)
  /\ slide_count (generator c) = slide_count g + length (presentation c)
  /\ exists (heading_text subheading_text notes_text : str)
       (body_tree : PageElement),
       presentation c =
         prs (state_of
                (_process_content_elements config env
                   (mkElement (parents content_div) body_tree)
                   (add_custom_title_slide env heading_text subheading_text
                      notes_text (mkPass g [] None [] [])))).
Proof.
  cbn zeta. unfold create_enhanced_presentation.
  set (s := title_scan _ _).
  set (st0 := add_custom_title_slide env _ _ _ _).
  destruct (title_slide_title_then_content env g
              (or_else (heading s) (lit " "))
              (or_else (subheading s) (lit " "))
              (or_else (speaker_notes s) [])) as [Hinv0 Hlen0].
  fold st0 in Hinv0, Hlen0.
  assert (Hinv : title_then_content g
                   (state_of (_process_content_elements config env
                                (mkElement (parents content_div) (tree s))
                                st0))).
  { unfold _process_content_elements.
    apply (for_each_pass_invariant config env (title_then_content g)).
    - intros element st. apply iteration_title_then_content.
    - exact Hinv0. }
  assert (Hfinal :
    forall st1, title_then_content g st1 ->
      (exists m, map layout (prs st1) = 0 :: repeat 1 m)
      /\ slide_count (self st1) = slide_count g + length (prs st1)
      /\ (length (prs st1) =? 0)%nat = false).
  { intros st1 [[m Hm] Hc]. split; [exists m; exact Hm|]. split; [exact Hc|].
    apply Nat.eqb_neq. apply (f_equal (@length nat)) in Hm.
    unfold layouts in Hm. rewrite length_map in Hm. cbn in Hm. lia. }
  destruct (_process_content_elements config env
              (mkElement (parents content_div) (tree s)) st0)
    as [st1|e st1] eqn:Hpass; cbn [state_of] in Hinv;
    destruct (Hfinal st1 Hinv) as (Hshape & Hcount & Hnonempty).
  - rewrite Hnonempty.
    destruct (presentation_writable env); cbn [presentation generator];
      (split; [exact Hshape|]; split; [exact Hcount|]);
      exists (or_else (heading s) (lit " ")),
        (or_else (subheading s) (lit " ")),
        (or_else (speaker_notes s) []), (tree s);
      fold st0; now rewrite Hpass.
  - cbn [presentation generator].
    split; [exact Hshape|]. split; [exact Hcount|].
    exists (or_else (heading s) (lit " ")),
      (or_else (subheading s) (lit " ")),
      (or_else (speaker_notes s) []), (tree s).
    fold st0. now rewrite Hpass.
Qed.

(** *** Notes and the slides they are for *)

Lemma notes_point_to_slides_grows (st st' : Pass) :
  deck_grows st st' -> notes_point_to_slides st -> notes_point_to_slides st'.
Proof.
  intros [[k Hadd] Hlast] (Hcount & Hcur & Hnotes).
  pose proof (slides_added_length _ _ _ Hadd) as Hlen.
  destruct Hadd as (_ & Hn & Hc & Ht & _).
  split; [lia|]. split; [auto|].
  intros n t Hin. rewrite Ht in Hin.
  destruct (Hnotes n t Hin) as (Hpos & t' & Hnth & Hin').
  split; [exact Hpos|]. exists t'. split; [|now rewrite Ht].
  rewrite Hn. rewrite nth_error_app1; [exact Hnth|].
  apply nth_error_Some. congruence.
Qed.

Lemma iteration_notes_point_to_slides (config : Config) (env : Env)
  (element : Element) (st : Pass) :
  notes_point_to_slides st ->
  notes_point_to_slides (state_of (iteration config env element st)).
Proof.
  intros Hinv.
  destruct (iteration_deck config env element st)
    as [H|(i & F & Hcur & Hcur' & Hprs & Hlay & Hcount' & Hcase)].
  { exact (notes_point_to_slides_grows _ _ H Hinv). }
  destruct Hinv as (Hcount & Hlast & Hnotes).
  pose proof (Hlast i Hcur) as Hi.
  assert (Hat : forall j,
            nth_error (slide_notes (state_of (iteration config env element st))) j
            = if Nat.eqb j i
              then option_map (fun s => notes (F s)) (nth_error (prs st) j)
              else nth_error (slide_notes st) j).
  { intros j. unfold slide_notes. rewrite Hprs, !nth_error_map.
    rewrite update_nth_error.
    destruct (Nat.eqb j i); [|reflexivity].
    now destruct (nth_error (prs st) j). }
  split; [now rewrite Hprs, update_length, Hcount'|].
  split; [intros j Hj; rewrite Hprs, update_length;
          rewrite Hcur' in Hj; injection Hj as <-; exact Hi|].
  destruct Hcase as [[Hsame Hkeep]|(x & Hnew & Hset)].
  - intros n t Hin. rewrite Hsame in Hin.
    destruct (Hnotes n t Hin) as (Hpos & t' & Hnth & Hin').
    split; [exact Hpos|]. exists t'. split; [|now rewrite Hsame].
    rewrite Hat. destruct (Nat.eqb_spec (n - 1) i) as [Heq|Hne];
      [|exact Hnth].
    unfold slide_notes in Hnth. rewrite nth_error_map in Hnth.
    destruct (nth_error (prs st) (n - 1)) as [s|]; [|discriminate].
    cbn in *. injection Hnth as Hs. now rewrite (Hkeep s t' Hs).
  - assert (Hsome : exists s, nth_error (prs st) i = Some s).
    { destruct (nth_error (prs st) i) as [s|] eqn:E; [eauto|].
      apply nth_error_None in E. lia. }
    destruct Hsome as [s0 Hs0].
    intros n t Hin. rewrite Hnew in Hin.
    apply in_app_or in Hin as [Hin|[[= <- <-]|[]]].
    + destruct (Hnotes n t Hin) as (Hpos & t' & Hnth & Hin').
      split; [exact Hpos|].
      destruct (Nat.eqb_spec (n - 1) i) as [Heq|Hne].
      * exists x. split.
        -- rewrite Hat, Heq, Nat.eqb_refl, Hs0. cbn. now rewrite Hset.
        -- rewrite Hnew. apply in_or_app. right. left.
           f_equal. lia.
      * exists t'. split.
        -- rewrite Hat. apply Nat.eqb_neq in Hne. now rewrite Hne.
        -- rewrite Hnew. apply in_or_app. now left.
    + split; [lia|]. exists x. split.
      * rewrite Hat.
        replace (slide_count (self st) - 1) with i by lia.
        rewrite Nat.eqb_refl, Hs0. cbn. now rewrite Hset.
      * rewrite Hnew. apply in_or_app. right. now left.
Qed.

Lemma title_slide_notes_point_to_slides (env : Env)
  (heading_text subheading_text notes_text : str) :
  notes_point_to_slides
    (add_custom_title_slide env heading_text subheading_text notes_text
       (mkPass init [] None [] [])).
Proof.
  unfold add_custom_title_slide, _add_watermark, notes_point_to_slides,
    current_is_last, slide_notes.
  destruct (truthy notes_text); cbn [on_slide with_prs self prs];
    [destruct (truthy (strip notes_text))|];
    destruct (watermark_inserted env); cbn;
    (split; [reflexivity|]; split; [discriminate|]);
    intros n t H; try (destruct H as [[= <- <-]|[]]); try destruct H;
    (split; [lia|]); eexists; (split; [reflexivity | now left]).
Qed.

(** X6. After a conversion by a fresh generator, every note of the
    accumulated list is for a slide of the deck, and that slide carries one
    of the notes recorded for it: for each entry of slide number [n] and
    text [t], the deck has an [n]-th slide, whose notes are the text of an
    entry for [n]. *)
Theorem notes_are_on_the_slides_they_name
  (config : Config) (env : Env) (content_div : Element) :
  let c := create_enhanced_presentation config env init content_div in
  Forall (fun k =>
    1 <= fst k
    /\ exists s t', nth_error (presentation c) (fst k - 1) = Some s
                    /\ notes s = Some t'
                    /\ In (fst k, t') (speaker_notes_txt (generator c)))
    (speaker_notes_txt (generator c)).
Proof.
  cbn zeta. unfold create_enhanced_presentation.
  set (s := title_scan _ _).
  set (st0 := add_custom_title_slide env _ _ _ _).
  assert (Hinv : notes_point_to_slides
                   (state_of (_process_content_elements config env
                                (mkElement (parents content_div) (tree s))
                                st0))
                 /\ title_then_content init
                      (state_of (_process_content_elements config env
                                   (mkElement (parents content_div) (tree s))
                                   st0))).
  { unfold _process_content_elements.
    apply (for_each_pass_invariant config env
             (fun st => notes_point_to_slides st
                        /\ title_then_content init st)).
    - intros element st [H1 H2]. split.
      + now apply iteration_notes_point_to_slides.
      + now apply iteration_title_then_content.
    - split.
      + pose proof (title_slide_notes_point_to_slides env
                      (or_else (heading s) (lit " "))
                      (or_else (subheading s) (lit " "))
                      (or_else (speaker_notes s) [])) as H.
        fold st0 in H. destruct H as (Hc & _ & Hn).
        split; [exact Hc|]. split; [intros i; discriminate | exact Hn].
      + apply (title_slide_title_then_content env init). }
  assert (Hfinal :
    forall st1, notes_point_to_slides st1 ->
      Forall (fun k =>
        1 <= fst k
        /\ exists s t', nth_error (prs st1) (fst k - 1) = Some s
                        /\ notes s = Some t'
                        /\ In (fst k, t') (speaker_notes_txt (self st1)))
        (speaker_notes_txt (self st1))).
  { intros st1 (_ & _ & Hn). apply Forall_forall. intros [n t] Hin.
    destruct (Hn n t Hin) as (Hpos & t' & Hnth & Hin').
    split; [exact Hpos|]. cbn [fst].
    unfold slide_notes in Hnth. rewrite nth_error_map in Hnth.
    destruct (nth_error (prs st1) (n - 1)) as [sl|]; [|discriminate].
    injection Hnth as Hsl. eauto. }
  destruct (_process_content_elements config env
              (mkElement (parents content_div) (tree s)) st0)
    as [st1|e st1]; cbn [state_of] in Hinv; destruct Hinv as [Hinv Hshape];
    specialize (Hfinal st1 Hinv).
  - rewrite (title_then_content_nonempty _ _ Hshape).
    destruct (presentation_writable env); exact Hfinal.
  - exact Hfinal.
Qed.

(** *** The code buffer and the turns of the loop *)






(** X8. Once [_ensure_slide] has been asked for a slide, a slide is open,
    and asking again, whatever the default title, opens no other slide: the
    pass is left as it is and the content box handed out is the body
    placeholder of the open slide. *)
Theorem ensure_slide_opens_one_slide_only
  (env : Env) (first_title second_title : str) (st : Pass) :
  let st1 := fst (ensure_current env first_title st) in
  exists slide,
    current_slide st1 = Some slide
    /\ ensure_current env second_title st1 = (st1, PlaceholderOf slide).
Proof.
  cbn zeta.
  destruct (ensure_current_added env first_title st) as (_ & _ & _ & _ & Hopen).
  destruct (fst (ensure_current env first_title st)) as [g p [slide|] b d];
    [|now contradiction Hopen].
  exists slide. split; reflexivity.
Qed.


(** *** Headings *)

Lemma heading_name_cases (n : string) :
  name_in headings n = true ->
  n = "h1" \/ n = "h2" \/ n = "h3" \/ n = "h4" \/ n = "h5" \/ n = "h6".
Proof.
  unfold name_in, mem, headings. cbn. intros H.
  repeat (apply orb_true_iff in H as [H|H]);
    try discriminate; apply String.eqb_eq in H; auto 7.
Qed.

(** X10. A heading that is visited while the code buffer is empty, and
    whose text carries no note marker, opens a new slide at the end of the
    deck, which becomes the open slide and is counted: a content slide with
    an empty body and no notes, titled by the text of the heading without
    its slide-number prefix, cut to 100 characters and followed by three
    dots when it is longer, so of at most 103 characters. The node is marked
    processed. *)
Theorem heading_opens_a_slide
  (config : Config) (env : Env) (element : Element) (st : Pass) :
  mem Nat.eqb (el_id element) (processed_elements st) = false ->
  split_notes (get_text (node element)) = None ->
  name_in headings (el_name element) = true ->
  code_buffer st = [] ->
  let clean_title := sub_slide_prefix (get_text (node element)) in
  let shown :=
    if (100 <? length clean_title)%nat
    then firstn 100 clean_title ++ lit "..."
    else clean_title in
  exists st',
    iteration config env element st = Ok st'
    /\ prs st' =
         prs st ++ [mkSlide 1 shown [empty_paragraph] (watermark env) None]
    /\ current_slide st' = Some (length (prs st))
    /\ slide_count (self st') = S (slide_count (self st))
    /\ speaker_notes_txt (self st') = speaker_notes_txt (self st)
    /\ code_buffer st' = []
    /\ processed_elements st' = el_id element :: processed_elements st
    /\ length shown <= 103.
Proof.
  intros Hfresh Hnote Hheading Hbuf. cbn zeta.
  unfold iteration. rewrite Hfresh, Hnote.
  unfold is_cm_line, flush_code_buffer at 1. rewrite Hbuf. cbn [bind].
  unfold dispatch. rewrite Hheading.
  assert (Hnames :
    String.eqb (el_name element) "div" = false
    /\ name_in ["p"; "span"] (el_name element) = false
    /\ String.eqb (el_name element) "p" = false
    /\ String.eqb (el_name element) "span" = false
    /\ String.eqb (el_name element) "code" = false).
  { destruct (heading_name_cases _ Hheading) as [H|[H|[H|[H|[H|H]]]]];
      rewrite H; repeat split; reflexivity. }
  destruct Hnames as (-> & -> & -> & -> & ->). cbn [andb].
  unfold _add_content_slide, _add_watermark, watermark, flush_code_buffer.
  set (shown := if (100 <? _)%nat then _ else _).
  assert (Hshown : length shown <= 103).
  { unfold shown.
    destruct (100 <? length (sub_slide_prefix (get_text (node element))))%nat
      eqn:Hlong.
    - rewrite length_app, length_firstn.
      change (length (lit "...")) with 3. lia.
    - apply Nat.ltb_ge in Hlong. lia. }
  clearbody shown.
  destruct (watermark_inserted env); cbn; rewrite Hbuf;
    (eexists; split; [reflexivity|]); cbn;
    rewrite !update_last; cbn; rewrite ?update_last; cbn;
    rewrite ?update_last; cbn; repeat split; auto.
Qed.

Lemma heading_opens_a_slide_witness :
  exists st',
    iteration default_config Examples.quiet Examples.numbered_heading
      Examples.idle = Ok st'
    /\ prs st' =
         [mkSlide 1 (lit "Overview") [empty_paragraph]
            (watermark Examples.quiet) None]
    /\ current_slide st' = Some 0
    /\ slide_count (self st') = 1
    /\ speaker_notes_txt (self st') = []
    /\ code_buffer st' = []
    /\ processed_elements st' = [5]
    /\ length (lit "Overview") <= 103.
Proof.
  apply (heading_opens_a_slide default_config Examples.quiet
           Examples.numbered_heading Examples.idle); reflexivity.
Defined.

(** *** The slide-number prefix *)

Lemma lstrip_digits (ds rest : str) :
  Forall ascii_digit ds -> ds <> [] -> lstrip (ds ++ rest) = ds ++ rest.
Proof.
  intros Hds Hne. destruct Hds as [|d ds Hd Hds]; [congruence|].
  cbn. now rewrite (ascii_digit_not_space d Hd).
Qed.

Lemma drop_digits_run (ds rest : str) :
  Forall ascii_digit ds -> drop_digits (ds ++ colon :: rest) = colon :: rest.
Proof.
  induction 1 as [|d ds Hd Hds IH]; cbn [app drop_digits].
  - reflexivity.
  - now rewrite (ascii_digit_is_digit d Hd).
Qed.

(** X11. A text that starts with [Slide ], a decimal number, a colon and a
    space loses all of that, and the whitespace that follows, when a title
    is cleaned: what is left is the rest of the text without its leading
    whitespace. *)
Theorem slide_number_prefix_is_dropped (n : nat) (text : str) :
  sub_slide_prefix (lit "Slide " ++ of_nat n ++ lit ": " ++ text)
  = lstrip text.
Proof.
  destruct (of_nat_digits n) as [Hne Hdigits].
  set (tail := of_nat n ++ lit ": " ++ text).
  assert (Hprefix : ci_prefix (lit "slide") (lit "Slide " ++ tail)
                    = Some (0x20%N :: tail)) by reflexivity.
  unfold sub_slide_prefix. rewrite Hprefix.
  assert (Hstrip : lstrip (0x20%N :: tail) = tail).
  { change (lstrip (0x20%N :: tail)) with (lstrip tail).
    unfold tail. now apply lstrip_digits. }
  rewrite Hstrip. unfold tail.
  destruct (of_nat n) as [|d ds] eqn:E; [congruence|].
  apply Forall_cons_iff in Hdigits as [Hd Hds]. cbn [app].
  rewrite (ascii_digit_is_digit d Hd).
  change (ds ++ lit ": " ++ text) with (ds ++ colon :: 0x20%N :: text).
  rewrite drop_digits_run by assumption.
  reflexivity.
Qed.

(** *** Tables, once more *)

Lemma max_of_positive (l : list nat) (m : nat) :
  max_of l = Some m -> Forall (fun x => 0 < x) l -> 0 < m.
Proof.
  intros Hmax Hpos. destruct (max_of_spec _ _ Hmax) as [Hin _].
  rewrite Forall_forall in Hpos. auto.
Qed.

(** X12. A table adds a shape to the slide exactly when one of its rows
    has a cell: a table without rows, or whose rows are all without cells,
    adds nothing. *)
Theorem table_without_cells_adds_nothing (table_element : PageElement) :
  table_shape table_element = None
  <-> Forall (fun row => row_cells row = [])
        (find_all ["tr"] [] table_element).
Proof.
  unfold table_shape.
  set (rows := find_all ["tr"] [] table_element).
  set (with_cells :=
         filter (fun row => (0 <? length (row_cells row))%nat) rows).
  assert (Hpos : Forall (fun x => 0 < x)
                   (map (fun row => length (row_cells row)) with_cells)).
  { apply Forall_map, Forall_forall. intros row Hrow.
    apply filter_In in Hrow as [_ Hrow]. now apply Nat.ltb_lt. }
  split.
  - intros Hnone. apply Forall_forall. intros row Hrow.
    destruct (row_cells row) as [|cell cells] eqn:Hcells; [reflexivity|].
    exfalso.
    assert (Hin : In row with_cells).
    { apply filter_In. split; [exact Hrow|]. rewrite Hcells. reflexivity. }
    destruct rows as [|first_row rest] eqn:Hrows; [destruct Hrow|].
    fold with_cells in Hnone.
    destruct (max_of (map (fun row => length (row_cells row)) with_cells))
      as [max_cols|] eqn:Hmax.
    + pose proof (max_of_positive _ _ Hmax Hpos) as Hm.
      destruct max_cols; [lia | discriminate].
    + destruct with_cells; [destruct Hin | discriminate].
  - intros Hall.
    destruct rows as [|first_row rest] eqn:Hrows; [reflexivity|].
    fold with_cells.
    assert (Hnil : with_cells = []).
    { unfold with_cells. rewrite <- Hrows in *.
      clear Hpos Hrows. induction Hall as [|row l Hrow Hl IH];
        cbn; [reflexivity|].
      now rewrite Hrow. }
    now rewrite Hnil.
Qed.

(** X13. In the shape made of a table no cell text has more than 200
    characters, and the header fill is set exactly when a cell of the first
    row of the table is a header cell. *)
Theorem table_cells_are_cut_and_header_marked
  (table_element : PageElement) (cells : list (list str)) (header : bool) :
  table_shape table_element = Some (Table cells header) ->
  Forall (Forall (fun text => length text <= 200)) cells
  /\ exists first_row rest,
       find_all ["tr"] [] table_element = first_row :: rest
       /\ (header = true <->
           exists cell, In cell (row_cells first_row)
                        /\ el_name cell = "th").
Proof.
  unfold table_shape.
  destruct (find_all ["tr"] [] table_element) as [|first_row rest] eqn:Hrows;
    [discriminate|].
  destruct (max_of _) as [max_cols|]; [|discriminate].
  destruct ((max_cols =? 0) || (length (first_row :: rest) =? 0))%nat;
    [discriminate|].
  intros [= <- <-]. split.
  - apply Forall_forall. intros line Hline.
    change (In line (map (row_texts max_cols) (first_row :: rest))) in Hline.
    apply in_map_iff in Hline as (row & <- & _).
    unfold row_texts. apply Forall_forall. intros text Htext.
    apply in_map_iff in Htext as (j & <- & _).
    destruct (nth_error (row_cells row) j); [|cbn; lia].
    change (slice_to 200 (get_text (node e)))
      with (firstn 200 (get_text (node e))).
    rewrite length_firstn. lia.
  - exists first_row, rest. split; [reflexivity|].
    rewrite existsb_exists. split.
    + intros (cell & Hin & Heq). apply String.eqb_eq in Heq. eauto.
    + intros (cell & Hin & Heq). exists cell. split; [exact Hin|].
      now apply String.eqb_eq.
Qed.

Lemma table_cells_are_cut_and_header_marked_witness :
  Forall (Forall (fun text => length text <= 200))
    [[lit "a"; lit "b"]; [lit "c"; lit "d"]]
  /\ exists first_row rest,
       find_all ["tr"] [] Examples.table_2x2 = first_row :: rest
       /\ (false = true <->
           exists cell, In cell (row_cells first_row)
                        /\ el_name cell = "th").
Proof.
  apply (table_cells_are_cut_and_header_marked Examples.table_2x2).
  reflexivity.
Defined.

(** *** The notes file, whatever the list *)

Lemma cleaned_notes_In (l seen : list NoteKey) (k : NoteKey) :
  In k (cleaned_notes seen l)
  <-> ~ In k seen
      /\ truthy (snd k) = true
      /\ exists t, In (fst k, t) l /\ strip t = snd k.
Proof.
  destruct k as [kn ks]. cbn [fst snd].
  revert seen. induction l as [|[n t] rest IH]; intros seen;
    cbn [cleaned_notes].
  { split; [intros [] | intros (_ & _ & t & [] & _)]. }
  assert (Hhead : forall t', (kn, t') = (n, t) -> strip t' = ks ->
                    (n, strip t) = (kn, ks)).
  { intros t' [= <- <-] <-. reflexivity. }
  destruct (truthy (strip t)) eqn:Htext; cbn [andb].
  - destruct (mem key_eqb (n, strip t) seen) eqn:Hseen; cbn [negb].
    + apply mem_key_In in Hseen. rewrite IH. split.
      * intros (Hk & Ht & t' & Hin & Hs). repeat split; auto.
        exists t'. split; [now right | exact Hs].
      * intros (Hk & Ht & t' & [Heq|Hin] & Hs).
        -- exfalso. apply Hk. now rewrite <- (Hhead t' (eq_sym Heq) Hs).
        -- repeat split; auto. eauto.
    + apply mem_key_not_In in Hseen. cbn [In]. rewrite IH. split.
      * intros [Heq|(Hk & Ht & t' & Hin & Hs)].
        -- injection Heq as <- <-. repeat split; auto.
           exists t. split; [now left | reflexivity].
        -- repeat split; auto.
           ++ intros Hin'. apply Hk. now right.
           ++ exists t'. split; [now right | exact Hs].
      * intros (Hk & Ht & t' & Hin & Hs).
        destruct Hin as [Heq|Hin];
          [left; exact (Hhead t' (eq_sym Heq) Hs)|].
        destruct (list_eq_dec N.eq_dec ks (strip t)) as [Hsame|Hdiff];
          [destruct (Nat.eq_dec kn n) as [Hn|Hn]|].
        -- left. congruence.
        -- right. repeat split; auto; [|eauto].
           intros [[= Heq _]|Hin']; [|auto]. apply Hn. now rewrite Heq.
        -- right. repeat split; auto; [|eauto].
           intros [[= _ Heq]|Hin']; [|auto]. apply Hdiff. now rewrite Heq.
  - rewrite IH. split.
    + intros (Hk & Ht & t' & Hin & Hs). repeat split; auto.
      exists t'. split; [now right | exact Hs].
    + intros (Hk & Ht & t' & [Heq|Hin] & Hs).
      * injection (Hhead t' (eq_sym Heq) Hs) as _ Hks.
        rewrite <- Hks in Ht. congruence.
      * repeat split; auto. eauto.
Qed.

Lemma cleaned_notes_NoDup (l seen : list NoteKey) :
  NoDup (cleaned_notes seen l).
Proof.
  revert seen. induction l as [|[n t] rest IH]; intros seen;
    cbn [cleaned_notes]; [constructor|].
  destruct (truthy (strip t) && negb (mem key_eqb (n, strip t) seen));
    [|apply IH].
  constructor; [|apply IH].
  intros Hin. apply cleaned_notes_In in Hin as (Hk & _). apply Hk. now left.
Qed.

(** X14. Whatever the list handed to the writer of the notes file, the
    notes it writes are the different keys of the list, each written once:
    a key is written when its text is not empty and it is the slide number
    and the stripped text of an entry of the list. Writing the notes kept
    changes nothing more: they are kept as they are. *)
Theorem notes_file_keeps_each_key_once (speaker_notes_list : list NoteKey) :
  let kept := cleaned_notes [] speaker_notes_list in
  NoDup kept
  /\ (forall k, In k kept <->
        truthy (snd k) = true
        /\ exists t, In (fst k, t) speaker_notes_list /\ strip t = snd k)
  /\ cleaned_notes [] kept = kept.
Proof.
  cbn zeta. split; [apply cleaned_notes_NoDup|]. split.
  - intros k. rewrite cleaned_notes_In. split.
    + intros (_ & H). exact H.
    + intros H. split; [intros []|exact H].
  - apply cleaned_notes_id.
    + apply Forall_forall. intros k Hk.
      apply cleaned_notes_In in Hk as (_ & Ht & t & _ & Hs).
      split; [|exact Ht]. rewrite <- Hs. apply strip_idem.
    + apply cleaned_notes_NoDup.
    + intros k _ [].
Qed.

(** *** The paragraphs of the deck *)

Lemma size_child (i : nat) (n : string) (c : list string)
  (kids : list PageElement) (k : PageElement) :
  In k kids -> size k < size (Tag i n c kids).
Proof.
  cbn [size]. induction kids as [|x kids IH]; intros Hin; [destruct Hin|].
  destruct Hin as [->|Hin]; [lia|]. specialize (IH Hin). lia.
Qed.

Lemma size_children (p k : PageElement) :
  In k (children p) -> size k < size p.
Proof.
  destruct p as [s|i n c kids]; [intros []|]. apply size_child.
Qed.

(** A property of tags that holds of a tag as soon as it holds of all the
    nodes below it holds of every tag. *)
Lemma by_size (P : PageElement -> Prop) :
  (forall p, (forall q, size q < size p -> P q) -> P p) -> forall p, P p.
Proof.
  intros Hstep p.
  assert (H : forall n q, size q < n -> P q).
  { induction n as [|n IH]; intros q Hq; [lia|].
    apply Hstep. intros r Hr. apply IH. lia. }
  apply (H (S (size p))). lia.
Qed.

(** What holds of the empty frame and is kept by the writing of an item,
    whose text is never empty, is kept by the flattening of a list. *)
Lemma process_list_invariant (Q : list Paragraph -> Prop) :
  Q [] ->
  (forall text level frame,
      truthy text = true -> Q frame -> Q (write_item text level frame)) ->
  forall list_element level frame,
    Q frame -> Q (_process_list_recursive level list_element frame).
Proof.
  intros Hnil Hwrite list_element.
  induction list_element as [list_element IH] using by_size.
  intros level frame Hframe.
  destruct list_element as [s|i n c kids]; [exact Hframe|].
  cbn [_process_list_recursive].
  assert (Hstart : Q (if single_blank frame then [] else frame))
    by (destruct (single_blank frame); assumption).
  revert Hstart. generalize (if single_blank frame then [] else frame).
  clear frame Hframe.
  assert (Hkids : forall k, In k kids -> size k < size (Tag i n c kids))
    by (intros k; apply size_child).
  remember (size (Tag i n c kids)) as bound eqn:Hbound. clear Hbound.
  induction kids as [|li kids IHkids]; intros frame Hframe; [exact Hframe|].
  assert (Hrest : forall k, In k kids -> size k < bound)
    by (intros k Hk; apply Hkids; now right).
  destruct li as [s|j m cl li_kids]; [now apply IHkids|].
  destruct (String.eqb m "li"); [|now apply IHkids].
  apply IHkids; [exact Hrest|].
  assert (Hli : forall x, In x li_kids -> size x < bound).
  { intros x Hx. pose proof (size_child j m cl li_kids x Hx).
    pose proof (Hkids (Tag j m cl li_kids) (or_introl eq_refl)). lia. }
  assert (Hwritten : Q (if truthy (li_text (Tag j m cl li_kids))
                        then write_item (li_text (Tag j m cl li_kids))
                               level frame
                        else frame))
    by (destruct (truthy _) eqn:Htext; auto).
  revert Hwritten. generalize (if truthy (li_text (Tag j m cl li_kids))
                               then write_item (li_text (Tag j m cl li_kids))
                                      level frame
                               else frame).
  clear frame Hframe Hkids.
  induction li_kids as [|x li_kids IHnested]; intros frame Hframe;
    [exact Hframe|].
  assert (Hli' : forall y, In y li_kids -> size y < bound)
    by (intros y Hy; apply Hli; now right).
  destruct x as [s|jx mx cx kx]; [now apply IHnested|].
  destruct (name_in ["ul"; "ol"] mx); [|now apply IHnested].
  apply IHnested; [exact Hli'|].
  apply IH; [apply Hli; now left | exact Hframe].
Qed.

Lemma every_paragraph_update (ok : Paragraph -> Prop) (i : nat)
  (f : Slide -> Slide) (deck : list Slide) :
  (forall s, Forall ok (body s) -> Forall ok (body (f s))) ->
  every_paragraph ok deck -> every_paragraph ok (update i f deck).
Proof.
  unfold every_paragraph. intros Hf Hdeck. revert i.
  induction Hdeck as [|s deck Hs Hdeck IH]; intros [|i]; cbn [update];
    constructor; auto.
Qed.

Lemma every_paragraph_app (ok : Paragraph -> Prop) (deck : list Slide)
  (s : Slide) :
  Forall ok (body s) -> every_paragraph ok deck ->
  every_paragraph ok (deck ++ [s]).
Proof.
  intros Hs Hdeck. apply Forall_app. split; [exact Hdeck|].
  constructor; [exact Hs | constructor].
Qed.

Section Paragraphs.

Variable config : Config.
Variable env : Env.

(** A property of paragraphs that holds of the paragraphs the generator
    makes: the empty one, the one a placeholder gets with its text, the
    code paragraph and the list item. *)
Variable ok : Paragraph -> Prop.
Hypothesis ok_empty : ok empty_paragraph.
Hypothesis ok_text : forall text, ok (mkParagraph text 0 false Inherited).
Hypothesis ok_code : forall code_text, ok (code_block config code_text).
Hypothesis ok_item : forall text level bu_none,
  truthy text = true -> ok (mkParagraph text (Nat.min level 4) bu_none Arial22).

(** The slide updates of the generator: each keeps the body or sets it to
    paragraphs of the kinds above. *)
Ltac slide_paragraphs :=
  repeat (apply every_paragraph_update;
          [intros ? ?;
           cbn [body set_title set_body set_notes add_shape touch_notes
                set_text];
           first [assumption | repeat constructor; auto]|]);
  first [assumption
        | apply every_paragraph_app;
          [cbn; repeat constructor; auto | assumption]].

Lemma title_slide_paragraphs (heading_text subheading_text notes_text : str)
  (st : Pass) :
  every_paragraph ok (prs st) ->
  every_paragraph ok
    (prs (add_custom_title_slide env heading_text subheading_text notes_text
            st)).
Proof.
  intros Hdeck. unfold add_custom_title_slide, _add_watermark.
  destruct (truthy notes_text); destruct (watermark_inserted env);
    cbn [prs on_slide with_prs count_slide remember_note with_self self];
    try match goal with
        | |- context [if ?b then remember_note _ _ else _] => destruct b
        end;
    cbn [prs on_slide with_prs count_slide remember_note with_self self];
    slide_paragraphs.
Qed.

Lemma add_content_slide_paragraphs (title_text : str) (st : Pass) :
  every_paragraph ok (prs st) ->
  every_paragraph ok (prs (fst (fst (_add_content_slide env title_text st)))).
Proof.
  intros Hdeck. unfold _add_content_slide, _add_watermark.
  destruct (watermark_inserted env); cbn [fst prs on_slide with_prs
    count_slide with_self];
    slide_paragraphs.
Qed.

Lemma ensure_current_paragraphs (default_title : str) (st : Pass) :
  every_paragraph ok (prs st) ->
  every_paragraph ok (prs (fst (ensure_current env default_title st))).
Proof.
  intros Hdeck. unfold ensure_current, _ensure_slide.
  destruct (current_slide st); [exact Hdeck|].
  pose proof (add_content_slide_paragraphs default_title st Hdeck) as H.
  destruct (_add_content_slide env default_title st) as [[st1 slide] box].
  exact H.
Qed.

Lemma add_paragraph_paragraphs (slide : nat) (p : Paragraph) (st : Pass) :
  ok p -> every_paragraph ok (prs st) ->
  every_paragraph ok (prs (add_paragraph slide p st)).
Proof.
  intros Hp Hdeck. unfold add_paragraph. cbn [prs on_slide with_prs].
  apply every_paragraph_update; [|exact Hdeck].
  intros s Hs. cbn. apply Forall_app. split; [exact Hs|].
  constructor; [exact Hp | constructor].
Qed.

Lemma add_code_content_paragraphs (box : ContentBox) (arg : CodeArg)
  (st : Pass) :
  every_paragraph ok (prs st) ->
  every_paragraph ok (prs (state_of (_add_code_content config box arg st))).
Proof.
  intros Hdeck. unfold _add_code_content.
  destruct arg as [s|e].
  - destruct (negb (truthy (strip s))); [exact Hdeck|].
    destruct box; cbn [state_of]; [exact Hdeck|].
    now apply add_paragraph_paragraphs.
  - destruct (find_all ["strip"] [] (node e)); [exact Hdeck|].
    destruct (descendants [] (node e0)); [exact Hdeck|].
    destruct box; cbn [state_of]; [exact Hdeck|].
    now apply add_paragraph_paragraphs.
Qed.

Lemma write_item_paragraphs (text : str) (level : nat)
  (frame : list Paragraph) :
  truthy text = true -> Forall ok frame ->
  Forall ok (write_item text level frame).
Proof.
  intros Htext Hframe. unfold write_item.
  destruct frame as [|p [|q frame]].
  - repeat constructor. now apply ok_item.
  - destruct (negb (truthy (strip (p_text p)))).
    + repeat constructor. now apply ok_item.
    + apply Forall_app. split; [exact Hframe|].
      repeat constructor. now apply ok_item.
  - apply Forall_app. split; [exact Hframe|].
    repeat constructor. now apply ok_item.
Qed.

Lemma add_list_content_paragraphs (box : ContentBox)
  (list_element : PageElement) (st : Pass) :
  every_paragraph ok (prs st) ->
  every_paragraph ok (prs (state_of (_add_list_content box list_element st))).
Proof.
  intros Hdeck. destruct box; cbn [_add_list_content state_of];
    [exact Hdeck|].
  cbn [prs on_slide with_prs].
  apply every_paragraph_update; [|exact Hdeck].
  intros s Hs. cbn [body set_body].
  apply (process_list_invariant (Forall ok)); auto.
  intros text level frame. apply write_item_paragraphs.
Qed.

Lemma add_table_to_slide_paragraphs (slide : nat)
  (table_element : PageElement) (st : Pass) :
  every_paragraph ok (prs st) ->
  every_paragraph ok (prs (_add_table_to_slide slide table_element st)).
Proof.
  intros Hdeck. unfold _add_table_to_slide.
  destruct (table_shape table_element); [|exact Hdeck].
  cbn [prs on_slide with_prs].
  apply every_paragraph_update; [|exact Hdeck]. intros sl Hs. exact Hs.
Qed.

Lemma flush_code_buffer_paragraphs (clear : bool) (st : Pass) :
  every_paragraph ok (prs st) ->
  every_paragraph ok (prs (state_of (flush_code_buffer config env clear st))).
Proof.
  intros Hdeck. unfold flush_code_buffer.
  destruct (code_buffer st); [exact Hdeck|].
  pose proof (ensure_current_paragraphs (lit "Content") st Hdeck) as Hens.
  destruct (ensure_current env (lit "Content") st) as [st1 box].
  cbn [fst] in Hens.
  pose proof (add_code_content_paragraphs box
                (OfStr (join newline (code_buffer st1))) st1 Hens) as Hadd.
  destruct (_add_code_content config box
              (OfStr (join newline (code_buffer st1))) st1) as [st2|e st2];
    cbn [bind state_of] in *; [|exact Hadd].
  destruct clear; exact Hadd.
Qed.

Lemma dispatch_paragraphs (element : Element) (st : Pass) :
  every_paragraph ok (prs st) ->
  every_paragraph ok
    (prs (fst (state_of (dispatch config env element st)))).
Proof.
  intros Hdeck. unfold dispatch.
  destruct (name_in headings (el_name element)).
  { pose proof (add_content_slide_paragraphs (get_text (node element)) st
                  Hdeck) as H.
    destruct (_add_content_slide env (get_text (node element)) st)
      as [[st1 slide] box]. exact H. }
  destruct (name_in ["ol"; "ul"] (el_name element)
            && negb (has_parent ["ul"; "ol"] element)).
  { pose proof (ensure_current_paragraphs (lit "List") st Hdeck) as H.
    destruct (ensure_current env (lit "List") st) as [st1 box].
    cbn [fst] in H.
    pose proof (add_list_content_paragraphs box (node element) st1 H) as Hl.
    destruct (_add_list_content box (node element) st1); exact Hl. }
  destruct (String.eqb (el_name element) "table").
  { pose proof (ensure_current_paragraphs (lit "Content") st Hdeck) as H.
    destruct (ensure_current env (lit "Content") st) as [st1 box].
    cbn [fst] in H. cbn [state_of fst].
    destruct (current_slide st1); [|exact H].
    now apply add_table_to_slide_paragraphs. }
  destruct (name_in ["pre"; "code"] (el_name element)).
  { pose proof (ensure_current_paragraphs (lit "Code") st Hdeck) as H.
    destruct (ensure_current env (lit "Code") st) as [st1 box].
    cbn [fst] in H.
    pose proof (add_code_content_paragraphs box (OfTag element) st1 H) as Hc.
    destruct (_add_code_content config box (OfTag element) st1); exact Hc. }
  exact Hdeck.
Qed.

Lemma iteration_paragraphs (element : Element) (st : Pass) :
  every_paragraph ok (prs st) ->
  every_paragraph ok (prs (state_of (iteration config env element st))).
Proof.
  intros Hdeck. unfold iteration.
  destruct (mem Nat.eqb (el_id element) (processed_elements st));
    [exact Hdeck|].
  destruct (split_notes (get_text (node element)))
    as [[content_part notes_part]|].
  { destruct (current_slide st) as [slide|]; [|exact Hdeck].
    destruct (truthy (strip notes_part)
              && negb (mem key_eqb
                         (slide_count (self (on_slide slide touch_notes st)),
                          strip notes_part)
                         (notes_seen (self (on_slide slide touch_notes st)))));
      cbn [state_of prs mark_processed on_slide with_prs remember_note
           with_self];
      repeat (apply every_paragraph_update; [intros s Hs; exact Hs|]);
      exact Hdeck. }
  destruct (is_cm_line element).
  { destruct (truthy (get_text (node element))); exact Hdeck. }
  pose proof (flush_code_buffer_paragraphs true st Hdeck) as Hflush.
  destruct (flush_code_buffer config env true st) as [st1|e st1];
    cbn [bind state_of] in *; [|exact Hflush].
  repeat match goal with
  | |- context [if ?b then Ok (mark_processed _ _) else _] =>
      destruct b; [exact Hflush|]
  end.
  pose proof (dispatch_paragraphs element st1 Hflush) as Hd.
  destruct (dispatch config env element st1) as [[st2 continued]|e [st2 c]];
    cbn [state_of fst] in Hd.
  - destruct continued; [exact Hd|].
    now apply flush_code_buffer_paragraphs.
  - exact Hd.
Qed.

(** The paragraphs of the deck of a conversion all satisfy [ok]. *)
Lemma conversion_paragraphs (g : Generator) (content_div : Element) :
  every_paragraph ok
    (presentation (create_enhanced_presentation config env g content_div)).
Proof.
  unfold create_enhanced_presentation.
  set (s := title_scan _ _).
  set (st0 := add_custom_title_slide env _ _ _ _).
  assert (H0 : every_paragraph ok (prs st0))
    by (apply title_slide_paragraphs; constructor).
  assert (H1 : every_paragraph ok
                 (prs (state_of (_process_content_elements config env
                                   (mkElement (parents content_div) (tree s))
                                   st0)))).
  { unfold _process_content_elements.
    apply (for_each_pass_invariant config env
             (fun st => every_paragraph ok (prs st))).
    - intros element st. apply iteration_paragraphs.
    - exact H0. }
  destruct (_process_content_elements config env
              (mkElement (parents content_div) (tree s)) st0)
    as [st1|e st1]; cbn [state_of] in H1; [|exact H1].
  assert (H2 : every_paragraph ok
                 (prs (if (length (prs st1) =? 0)%nat
                       then _add_fallback_slide
                              (lit "No Content Found")
                              (lit "The canvas appears to be empty or could not be processed.")
                              st1
                       else st1))).
  { destruct (length (prs st1) =? 0)%nat; [|exact H1].
    unfold _add_fallback_slide.
    cbn [prs on_slide with_prs count_slide with_self].
    slide_paragraphs. }
  destruct (presentation_writable env); exact H2.
Qed.

End Paragraphs.

(** X15. In the deck of every conversion, no paragraph is indented deeper
    than level 4, and every paragraph written for a list item has a text
    that is not empty. *)
Theorem deck_paragraphs_are_at_most_four_levels_deep
  (config : Config) (env : Env) (g : Generator) (content_div : Element) :
  every_paragraph
    (fun p => p_level p <= 4
              /\ (p_font p = Arial22 -> truthy (p_text p) = true))
    (presentation (create_enhanced_presentation config env g content_div)).
Proof.
  apply conversion_paragraphs.
  - split; [cbn; lia | discriminate].
  - intros text. split; [cbn; lia | discriminate].
  - intros code_text. split; [cbn; lia | discriminate].
  - intros text level bu_none Htext. split; [cbn; lia | auto].
Qed.

(** X16. With a maximum content length that is not negative, every code
    paragraph of the deck of a conversion is at level 0, without a bullet,
    and has at most that many characters. *)
Theorem deck_code_paragraphs_are_cut
  (config : Config) (env : Env) (g : Generator) (content_div : Element) :
  (0 <= max_slide_content_length config)%Z ->
  every_paragraph
    (fun p => p_font p = CourierNew20 ->
              p_level p = 0
              /\ p_bu_none p = true
              /\ (Z.of_nat (length (p_text p))
                  <= max_slide_content_length config)%Z)
    (presentation (create_enhanced_presentation config env g content_div)).
Proof.
  intros Hmax. apply conversion_paragraphs.
  - discriminate.
  - discriminate.
  - intros code_text _. cbn [code_block p_level p_bu_none p_text].
    split; [reflexivity|]. split; [reflexivity|].
    unfold slice_to.
    destruct (Z.leb_spec 0 (max_slide_content_length config)); [|lia].
    rewrite length_firstn. lia.
  - discriminate.
Qed.

Lemma deck_code_paragraphs_are_cut_witness :
  every_paragraph
    (fun p => p_font p = CourierNew20 ->
              p_level p = 0
              /\ p_bu_none p = true
              /\ (Z.of_nat (length (p_text p))
                  <= max_slide_content_length default_config)%Z)
    (presentation (create_enhanced_presentation default_config Examples.quiet
                     init Examples.headed_code_run_canvas)).
Proof.
  apply (deck_code_paragraphs_are_cut default_config Examples.quiet init
           Examples.headed_code_run_canvas).
  cbn. lia.
Defined.

(** *** Only the open slide is written *)

Lemma open_slide_only_refl (st : Pass) : open_slide_only st st.
Proof. unfold open_slide_only. auto. Qed.

Lemma open_slide_only_trans (st1 st2 st3 : Pass) :
  open_slide_only st1 st2 -> open_slide_only st2 st3 ->
  open_slide_only st1 st3.
Proof.
  intros (Hlen & Hcur & Hkept) (Hlen' & Hcur' & Hkept').
  split; [lia|]. split.
  - destruct Hcur' as [->|(i & -> & Hi)]; [exact Hcur|].
    right. exists i. split; [reflexivity | lia].
  - intros j Hj Hopen. rewrite Hkept', Hkept; auto; [lia|].
    destruct Hcur as [->|(i & -> & Hi)]; [exact Hopen|].
    intros [= ->]. lia.
Qed.

Lemma open_slide_only_same (st st' : Pass) :
  prs st' = prs st -> current_slide st' = current_slide st ->
  open_slide_only st st'.
Proof. unfold open_slide_only. intros -> ->. auto. Qed.

Lemma on_slide_open_slide_only (i : nat) (f : Slide -> Slide) (st : Pass) :
  current_slide st = Some i -> open_slide_only st (on_slide i f st).
Proof.
  intros Hcur. unfold open_slide_only, on_slide. cbn [prs with_prs current_slide].
  rewrite update_length. split; [lia|]. split; [now left|].
  intros j Hj Hopen. rewrite update_nth_error.
  destruct (Nat.eqb_spec j i) as [->|_]; [congruence | reflexivity].
Qed.

Lemma add_content_slide_appends (env : Env) (title_text : str) (st : Pass) :
  let '(st', slide, box) := _add_content_slide env title_text st in
  (exists s, prs st' = prs st ++ [s])
  /\ slide = length (prs st)
  /\ current_slide st' = current_slide st.
Proof.
  unfold _add_content_slide, _add_watermark, on_slide.
  destruct (watermark_inserted env); cbn;
    rewrite ?update_last; cbn; rewrite ?update_last; cbn;
    rewrite ?update_last; eauto.
Qed.

Lemma opened_slide_only (st st' : Pass) (slide : nat) :
  (exists s, prs st' = prs st ++ [s]) -> slide = length (prs st) ->
  open_slide_only st (with_current_slide (Some slide) st').
Proof.
  intros [s Hs] ->. unfold open_slide_only.
  cbn [prs current_slide with_current_slide]. rewrite Hs, length_app.
  split; [lia|]. split; [right; eauto|].
  intros j Hj _. now apply nth_error_app1.
Qed.

Lemma ensure_current_open_slide_only (env : Env) (default_title : str)
  (st : Pass) :
  let r := ensure_current env default_title st in
  open_slide_only st (fst r)
  /\ forall slide, snd r = PlaceholderOf slide ->
       current_slide (fst r) = Some slide.
Proof.
  cbn zeta. unfold ensure_current, _ensure_slide.
  destruct (current_slide st) as [i|] eqn:Hcur.
  - cbn [fst snd]. split; [now apply open_slide_only_same|].
    now intros slide [= <-].
  - pose proof (add_content_slide_appends env default_title st) as H.
    pose proof (add_content_slide_added env default_title st) as Hbox.
    destruct (_add_content_slide env default_title st) as [[st1 slide] box].
    destruct H as (Happ & Hslide & _). destruct Hbox as (_ & _ & _ & ->).
    cbn [fst snd]. split; [now apply opened_slide_only | discriminate].
Qed.

Lemma add_code_content_open_slide_only (config : Config) (box : ContentBox)
  (arg : CodeArg) (st : Pass) :
  (forall slide, box = PlaceholderOf slide -> current_slide st = Some slide) ->
  let st' := state_of (_add_code_content config box arg st) in
  open_slide_only st st' /\ current_slide st' = current_slide st.
Proof.
  intros Hbox. cbn zeta. unfold _add_code_content, add_paragraph.
  destruct arg as [s|e].
  - destruct (negb (truthy (strip s)));
      [split; [apply open_slide_only_refl | reflexivity]|].
    destruct box as [slide|slide]; cbn [state_of];
      (split; [|reflexivity]);
      [apply open_slide_only_refl | apply on_slide_open_slide_only; auto].
  - destruct (find_all ["strip"] [] (node e));
      [split; [apply open_slide_only_refl | reflexivity]|].
    destruct (descendants [] (node e0));
      [split; [apply open_slide_only_refl | reflexivity]|].
    destruct box as [slide|slide]; cbn [state_of];
      (split; [|reflexivity]);
      [apply open_slide_only_refl | apply on_slide_open_slide_only; auto].
Qed.

Lemma add_list_content_open_slide_only (box : ContentBox)
  (list_element : PageElement) (st : Pass) :
  (forall slide, box = PlaceholderOf slide -> current_slide st = Some slide) ->
  let st' := state_of (_add_list_content box list_element st) in
  open_slide_only st st' /\ current_slide st' = current_slide st.
Proof.
  intros Hbox. cbn zeta.
  destruct box as [slide|slide]; cbn [_add_list_content state_of];
    (split; [|reflexivity]);
    [apply open_slide_only_refl | apply on_slide_open_slide_only; auto].
Qed.

Lemma flush_code_buffer_open_slide_only (config : Config) (env : Env)
  (clear : bool) (st : Pass) :
  open_slide_only st (state_of (flush_code_buffer config env clear st)).
Proof.
  unfold flush_code_buffer.
  destruct (code_buffer st) as [|line rest]; [apply open_slide_only_refl|].
  destruct (ensure_current_open_slide_only env (lit "Content") st)
    as [Hens Hbox].
  destruct (ensure_current env (lit "Content") st) as [st1 box].
  cbn [fst snd] in Hens, Hbox.
  destruct (add_code_content_open_slide_only config box
              (OfStr (join newline (code_buffer st1))) st1 Hbox)
    as [Hadd Hcur].
  destruct (_add_code_content config box
              (OfStr (join newline (code_buffer st1))) st1) as [st2|e st2];
    cbn [bind state_of] in *;
    apply (open_slide_only_trans _ _ _ Hens); [|exact Hadd].
  apply (open_slide_only_trans _ _ _ Hadd).
  destruct clear; [now apply open_slide_only_same | apply open_slide_only_refl].
Qed.

Lemma dispatch_open_slide_only (config : Config) (env : Env)
  (element : Element) (st : Pass) :
  open_slide_only st (fst (state_of (dispatch config env element st))).
Proof.
  unfold dispatch.
  destruct (name_in headings (el_name element)).
  { pose proof (add_content_slide_appends env (get_text (node element)) st)
      as H.
    destruct (_add_content_slide env (get_text (node element)) st)
      as [[st1 slide] box].
    destruct H as (Happ & Hslide & _). cbn [state_of fst].
    apply (open_slide_only_trans _ (with_current_slide (Some slide) st1));
      [now apply opened_slide_only | now apply open_slide_only_same]. }
  destruct (name_in ["ol"; "ul"] (el_name element)
            && negb (has_parent ["ul"; "ol"] element)).
  { destruct (ensure_current_open_slide_only env (lit "List") st)
      as [Hens Hbox].
    destruct (ensure_current env (lit "List") st) as [st1 box].
    cbn [fst snd] in Hens, Hbox.
    destruct (add_list_content_open_slide_only box (node element) st1 Hbox)
      as [Hadd Hcur].
    destruct (_add_list_content box (node element) st1) as [st2|e st2];
      cbn [state_of fst] in *;
      apply (open_slide_only_trans _ _ _ Hens); [|exact Hadd].
    apply (open_slide_only_trans _ _ _ Hadd). now apply open_slide_only_same. }
  destruct (String.eqb (el_name element) "table").
  { destruct (ensure_current_open_slide_only env (lit "Content") st)
      as [Hens _].
    destruct (ensure_current env (lit "Content") st) as [st1 box].
    cbn [fst] in Hens. cbn [state_of fst].
    apply (open_slide_only_trans _ _ _ Hens).
    destruct (current_slide st1) as [slide|] eqn:Hcur;
      [|now apply open_slide_only_same].
    apply (open_slide_only_trans _
             (_add_table_to_slide slide (node element) st1));
      [|now apply open_slide_only_same].
    unfold _add_table_to_slide.
    destruct (table_shape (node element));
      [now apply on_slide_open_slide_only | apply open_slide_only_refl]. }
  destruct (name_in ["pre"; "code"] (el_name element)).
  { destruct (ensure_current_open_slide_only env (lit "Code") st)
      as [Hens Hbox].
    destruct (ensure_current env (lit "Code") st) as [st1 box].
    cbn [fst snd] in Hens, Hbox.
    destruct (add_code_content_open_slide_only config box (OfTag element) st1
                Hbox) as [Hadd Hcur].
    destruct (_add_code_content config box (OfTag element) st1)
      as [st2|e st2]; cbn [state_of fst] in *;
      apply (open_slide_only_trans _ _ _ Hens); exact Hadd. }
  cbn. now apply open_slide_only_same.
Qed.

Lemma iteration_open_slide_only (config : Config) (env : Env)
  (element : Element) (st : Pass) :
  open_slide_only st (state_of (iteration config env element st)).
Proof.
  unfold iteration.
  destruct (mem Nat.eqb (el_id element) (processed_elements st));
    [apply open_slide_only_refl|].
  destruct (split_notes (get_text (node element)))
    as [[content_part notes_part]|].
  { cbn [state_of].
    destruct (current_slide st) as [slide|] eqn:Hcur;
      [|now apply open_slide_only_same].
    pose proof (on_slide_open_slide_only slide touch_notes st Hcur) as Htouch.
    match goal with
    | |- context [if ?b then _ else _] => destruct b
    end.
    - apply (open_slide_only_trans _ _ _ Htouch).
      match goal with
      | |- open_slide_only _ (mark_processed _ (on_slide _ _ ?x)) =>
          apply (open_slide_only_trans _ x);
            [now apply open_slide_only_same|];
          apply (open_slide_only_trans _ (on_slide slide
                                            (set_notes (strip notes_part)) x));
            [now apply on_slide_open_slide_only
            | now apply open_slide_only_same]
      end.
    - apply (open_slide_only_trans _ _ _ Htouch).
      now apply open_slide_only_same. }
  destruct (is_cm_line element).
  { destruct (truthy (get_text (node element)));
      now apply open_slide_only_same. }
  pose proof (flush_code_buffer_open_slide_only config env true st) as Hflush.
  destruct (flush_code_buffer config env true st) as [st1|e st1];
    cbn [bind state_of] in *; [|exact Hflush].
  repeat match goal with
  | |- context [if ?b then Ok (mark_processed _ _) else _] =>
      destruct b;
      [apply (open_slide_only_trans _ _ _ Hflush);
       now apply open_slide_only_same|]
  end.
  pose proof (dispatch_open_slide_only config env element st1) as Hd.
  destruct (dispatch config env element st1) as [[st2 continued]|e [st2 c]];
    cbn [state_of fst] in Hd.
  - destruct continued.
    + exact (open_slide_only_trans _ _ _ Hflush Hd).
    + pose proof (flush_code_buffer_open_slide_only config env false st2)
        as Hf2.
      exact (open_slide_only_trans _ _ _ Hflush
               (open_slide_only_trans _ _ _ Hd Hf2)).
  - apply (open_slide_only_trans _ _ _ Hflush).
    apply (open_slide_only_trans _ _ _ Hd). now apply open_slide_only_same.
Qed.

(** X17. Whatever the nodes and the state of the pass, the loop writes on
    the open slide and on the slides it adds only: every other slide of the
    deck is afterwards as it was, at its place, also when the loop is left
    by an exception. *)
Theorem pass_writes_on_the_open_slide_only
  (config : Config) (env : Env) (elements : list Element) (st : Pass) :
  open_slide_only st (state_of (for_each config env elements st)).
Proof.
  revert st. induction elements as [|element rest IH]; intros st;
    [apply open_slide_only_refl|].
  cbn [for_each].
  pose proof (iteration_open_slide_only config env element st) as Hstep.
  destruct (iteration config env element st) as [st1|e st1];
    cbn [bind state_of] in *; [|exact Hstep].
  exact (open_slide_only_trans _ _ _ Hstep (IH st1)).
Qed.
